(** * target-parquet: flattening of records and schemas, type resolution

    A shallow embedding of [src/target_parquet/helpers.py] and the
    properties its specification states about it.

    Conventions of the model.
    - A Python [str] is a Rocq [string]; [upper] and [repr] are exact on
      ASCII characters, which is where schema tokens and the examples live.
    - A Python [dict] is an association list in insertion order.  Python
      dictionaries never hold a key twice; [dict_set] keeps that invariant
      and statements about arbitrary input dictionaries assume it where it
      matters ([NoDup] of the keys).
    - A Python [set] of strings is a [gset string]; the order in which a set
      is iterated is not fixed by the language and is a parameter of the
      development ([PySetOrder]), which may depend on the order of insertion.
    - A raised exception is the [Raise] case of [result]; a logger call
      appends a record to the list of diagnostics a function returns. *)

From Stdlib Require Import ZArith Ascii DecimalString.
From stdpp Require Import base list strings gmap.

(** ** Strings *)

Module PyStr.

(** The double quote character, and a string holding just one character. *)
Definition dquote : ascii := Ascii.ascii_of_nat 34.
Definition squote : ascii := Ascii.ascii_of_nat 39.
Definition backslash : ascii := Ascii.ascii_of_nat 92.
Definition chr (c : ascii) : string := String c EmptyString.

(** [str.upper()] on ASCII: the letters a-z move to A-Z. *)
Definition upper_char (c : ascii) : ascii :=
  let n := Ascii.nat_of_ascii c in
  if (97 <=? n)%nat && (n <=? 122)%nat then Ascii.ascii_of_nat (n - 32) else c.

Fixpoint upper (s : string) : string :=
  match s with
  | EmptyString => EmptyString
  | String c s' => String (upper_char c) (upper s')
  end.

(** [sub in s] for two strings: substring search. *)
Fixpoint contains (sub s : string) : bool :=
  String.prefix sub s ||
  match s with
  | EmptyString => false
  | String _ s' => contains sub s'
  end.

Fixpoint mem_char (c : ascii) (s : string) : bool :=
  match s with
  | EmptyString => false
  | String c' s' => Ascii.eqb c c' || mem_char c s'
  end.

(** [sep.join(parts)]. *)
Fixpoint join (sep : string) (parts : list string) : string :=
  match parts with
  | [] => ""
  | [p] => p
  | p :: rest => p +:+ sep +:+ join sep rest
  end.

Definition hex_digit (n : nat) : ascii :=
  if (n <? 10)%nat then Ascii.ascii_of_nat (48 + n) else Ascii.ascii_of_nat (87 + n).

(** One character of [repr(s)] inside the quotes [q]. *)
Definition repr_char (q : ascii) (c : ascii) : string :=
  let n := Ascii.nat_of_ascii c in
  if Ascii.eqb c q || Ascii.eqb c backslash then String backslash (chr c)
  else if (n =? 9)%nat then String backslash "t"
  else if (n =? 10)%nat then String backslash "n"
  else if (n =? 13)%nat then String backslash "r"
  else if (n <? 32)%nat || (n =? 127)%nat then
    String backslash (String "x"%char (String (hex_digit (n / 16)) (chr (hex_digit (n mod 16)))))
  else chr c.

Fixpoint repr_chars (q : ascii) (s : string) : string :=
  match s with
  | EmptyString => EmptyString
  | String c s' => repr_char q c +:+ repr_chars q s'
  end.

(** [repr(s)]: single quotes, unless the string holds a single quote and
    no double quote. *)
Definition repr (s : string) : string :=
  let q := if mem_char squote s && negb (mem_char dquote s) then dquote else squote in
  String q (repr_chars q s +:+ chr q).

(** [repr(n)] for an [int]. *)
Definition repr_int (z : Z) : string := NilZero.string_of_int (Z.to_int z).

End PyStr.

(** ** Values of a record *)

(** What a parsed JSON document holds.  A [float] is kept as its [repr]:
    only its identity and its rendering matter to the code below.  [VDict]
    is the one case of [isinstance(v, MutableMapping)], [VList] the one case
    of [type(v) is list]. *)
#[warnings="-register-all"]
Inductive value : Type :=
| VNone
| VBool (b : bool)
| VInt (z : Z)
| VFloat (repr : string)
| VStr (s : string)
| VList (l : list value)
| VDict (d : list (string * value)).

(** A Python dictionary with string keys, in insertion order. *)
Definition dict (V : Type) : Type := list (string * V).

Definition record : Type := dict value.

(** [repr(v)]; [str] of a list or of a dictionary is its [repr]. *)
Fixpoint py_repr (v : value) : string :=
  match v with
  | VNone => "None"
  | VBool true => "True"
  | VBool false => "False"
  | VInt z => PyStr.repr_int z
  | VFloat r => r
  | VStr s => PyStr.repr s
  | VList l => "[" +:+ PyStr.join ", " (map py_repr l) +:+ "]"
  | VDict d =>
      "{" +:+ PyStr.join ", "
              (map (fun kv => PyStr.repr (fst kv) +:+ ": " +:+ py_repr (snd kv)) d) +:+ "}"
  end.

(** ** Dictionaries *)

Section Dict.
Context {V : Type}.

(** [d[k] = v]: an existing key keeps its place and takes the new value, a
    new key goes last. *)
Fixpoint dict_set (d : dict V) (k : string) (v : V) : dict V :=
  match d with
  | [] => [(k, v)]
  | (k', v') :: rest =>
      if String.eqb k' k then (k', v) :: rest else (k', v') :: dict_set rest k v
  end.

(** [d.update(other)], also with a list of pairs for [other]. *)
Definition dict_update (d : dict V) (other : list (string * V)) : dict V :=
  fold_left (fun acc kv => dict_set acc (fst kv) (snd kv)) other d.

(** [dict(items)]. *)
Definition dict_of_items (items : list (string * V)) : dict V :=
  dict_update [] items.

(** [d.get(k)]: [None] when the key is absent. *)
Fixpoint dict_get (d : dict V) (k : string) : option V :=
  match d with
  | [] => None
  | (k', v') :: rest => if String.eqb k' k then Some v' else dict_get rest k
  end.

Definition dict_keys (d : dict V) : list string := map fst d.
End Dict.

(** ** [flatten] *)

(** [parent_key + sep + k if parent_key else k] *)
Definition join_key (parent_key sep k : string) : string :=
  match parent_key with
  | EmptyString => k
  | _ => parent_key +:+ sep +:+ k
  end.

(** What [flatten] stores for a value that is not a mapping:
    [str(v) if type(v) is list else v]. *)
Definition leaf_value (v : value) : value :=
  match v with
  | VList _ => VStr (py_repr v)
  | _ => v
  end.

(** The body of [flatten], given the recursive call [rec v new_key] for
    [flatten(v, new_key, sep=sep)]. *)
Definition flatten_body (rec : value -> string -> record)
    (dictionary : option record) (parent_key sep : string) : record :=
  let items :=
    match dictionary with
    | Some ((_ :: _) as d) =>
        fold_left (fun items kv =>
          let new_key := join_key parent_key sep (fst kv) in
          match snd kv with
          | VDict _ => items ++ rec (snd kv) new_key
          | v => items ++ [(new_key, leaf_value v)]
          end) d []
    | _ => []
    end in
  dict_of_items items.

Fixpoint flatten_mapping (v : value) (parent_key sep : string) {struct v} : record :=
  match v with
  | VDict d => flatten_body (fun v' k' => flatten_mapping v' k' sep) (Some d) parent_key sep
  | _ => []
  end.

Definition flatten (dictionary : option record) (parent_key sep : string) : record :=
  flatten_body (fun v k => flatten_mapping v k sep) dictionary parent_key sep.

(** ** Reading [flatten]: entries, leaves, shapes of records *)

(** [isinstance(v, MutableMapping)] and [type(v) is list]. *)
Definition is_mapping (v : value) : bool :=
  match v with VDict _ => true | _ => false end.

Definition is_list (v : value) : bool :=
  match v with VList _ => true | _ => false end.

(** What one pass of the loop of [flatten] adds to [items]. *)
Definition flatten_entry (parent_key sep : string) (kv : string * value) : list (string * value) :=
  let new_key := join_key parent_key sep (fst kv) in
  match snd kv with
  | VDict d' => flatten (Some d') new_key sep
  | v => [(new_key, leaf_value v)]
  end.

(** [leaf_at sep d parent_key new_key v]: walking [d] through nested
    mappings, starting under [parent_key], reaches the value [v], which is
    not a mapping, at the flattened key [new_key]. *)
Inductive leaf_at (sep : string) : record -> string -> string -> value -> Prop :=
| leaf_here d parent_key k v :
    In (k, v) d -> is_mapping v = false ->
    leaf_at sep d parent_key (join_key parent_key sep k) v
| leaf_under d parent_key k d' new_key v :
    In (k, VDict d') d -> leaf_at sep d' (join_key parent_key sep k) new_key v ->
    leaf_at sep d parent_key new_key v.

(** [drops_empty_mapping R R']: [R'] is [R] without one key, at any depth,
    whose value is an empty mapping. *)
Inductive drops_empty_mapping : record -> record -> Prop :=
| drop_here pre k rest :
    drops_empty_mapping (pre ++ (k, VDict []) :: rest) (pre ++ rest)
| drop_under pre k d d' rest :
    drops_empty_mapping d d' ->
    drops_empty_mapping (pre ++ (k, VDict d) :: rest) (pre ++ (k, VDict d') :: rest).

(** A record none of whose values is a mapping, and one without lists. *)
Definition is_flat (R : record) : bool :=
  forallb (fun kv => negb (is_mapping (snd kv))) R.

Definition has_no_list (R : record) : bool :=
  forallb (fun kv => negb (is_list (snd kv))) R.

(** ** Schemas *)

(** What a declaration holds under ["type"]: one token or a list of tokens. *)
Inductive type_decl : Type :=
| TStr (token : string)
| TList (tokens : list string).

(** A declaration, the dictionary a schema attaches to a field.
    [decl_type] is [None] when the declaration has no ["type"] key;
    [decl_properties] is [value.get("properties")].  The other keys of a
    declaration (["items"], ["format"], ...) are never read.  A ["type"]
    that is neither a string nor a list of strings is outside the model. *)
#[warnings="-register-all"]
Inductive decl : Type :=
  Decl { decl_type : option type_decl;
         decl_properties : option (list (string * decl)) }.

Definition schema : Type := dict decl.

(** The flat mapping [flatten_schema] returns: [value.get("type", None)] for
    every flattened key. *)
Definition flat_schema : Type := dict (option type_decl).

(** [token in value.get("type", [])]: membership in a list of tokens,
    substring search in a single token, [False] in the default [[]]. *)
Definition type_contains (token : string) (t : option type_decl) : bool :=
  match t with
  | None => false
  | Some (TStr s) => PyStr.contains token s
  | Some (TList l) => existsb (String.eqb token) l
  end.

(** [LOGGER.warning(f"SCHEMA with limited support on field {key}: {value}")]:
    the record keeps the two values the message is formatted from. *)
Inductive log_record : Type :=
| LogWarning (key : string) (value : decl).

(** The body of [flatten_schema], given the recursive call [rec value new_key]
    for [flatten_schema(value.get("properties"), new_key, sep=sep)].  The
    state of the loop is the diagnostics logged so far and [items]. *)
Definition flatten_schema_body (rec : decl -> string -> list log_record * flat_schema)
    (dictionary : option schema) (parent_key sep : string)
  : list log_record * flat_schema :=
  match dictionary with
  | Some ((_ :: _) as d) =>
      fold_left (fun st kv =>
        let key := fst kv in
        let value := snd kv in
        let new_key := join_key parent_key sep key in
        let log :=
          match decl_type value with
          | None => fst st ++ [LogWarning key value]
          | Some _ => fst st
          end in
        if type_contains "object" (decl_type value)
        then let sub := rec value new_key in
             (log ++ fst sub, dict_update (snd st) (snd sub))
        else (log, dict_set (snd st) new_key (decl_type value))) d ([], [])
  | _ => ([], [])
  end.

Fixpoint flatten_schema_properties (value : decl) (parent_key sep : string) {struct value}
  : list log_record * flat_schema :=
  match value with
  | Decl _ properties =>
      flatten_schema_body (fun v k => flatten_schema_properties v k sep) properties parent_key sep
  end.

Definition flatten_schema (dictionary : option schema) (parent_key sep : string)
  : list log_record * flat_schema :=
  flatten_schema_body (fun v k => flatten_schema_properties v k sep) dictionary parent_key sep.

(** ** Exceptions *)

Inductive exn : Type :=
| NotImplementedError (msg : string)
| KeyError (key : string).

Inductive result (A : Type) : Type :=
| Ok (a : A)
| Raise (e : exn).
Arguments Ok {A} a.
Arguments Raise {A} e.

(** Raising ends the computation; otherwise the next statement runs. *)
#[global] Instance result_bind : MBind result :=
  fun A B (k : A -> result B) (r : result A) =>
    match r with
    | Ok a => k a
    | Raise e => Raise e
    end.

(** ** The storage types *)

Module pa.
Inductive DataType : Type := bool_ | string | int64 | float64.

Record Field : Type := field { name : String.string; type : DataType; nullable : bool }.

(** [pa.schema(fields)]: the fields in the order given. *)
Definition Schema : Type := list Field.
Definition schema (fields : list Field) : Schema := fields.
End pa.

Definition FIELD_TYPE_TO_PYARROW : dict pa.DataType :=
  [("BOOLEAN", pa.bool_);
   ("STRING", pa.string);
   ("ARRAY", pa.string);
   ("", pa.string);
   ("INTEGER", pa.int64);
   ("NUMBER", pa.float64)].

(** ** Iteration order of a set *)

(** [list(s)] enumerates the elements of the set [s], each once, in an order
    the language leaves open: in CPython it depends on the hashes of the
    elements and on the order in which they were inserted.
    [set_iter inserted X] is the enumeration of a set that was filled by
    inserting [inserted], in this order, and whose value, after any
    [discard], is [X]. *)
Class PySetOrder : Type := {
  set_iter : list string -> gset string -> list string;
  set_iter_perm :
    forall (inserted : list string) (X : gset string), set_iter inserted X ≡ₚ elements X
}.

(** One such order. *)
Definition elements_order : PySetOrder :=
  {| set_iter := fun _ => elements;
     set_iter_perm := fun _ X => reflexivity (elements X) |}.

(** ** Type resolution and the schema builder *)

(** [input_types or []], then a single token wrapped in a list. *)
Definition normalize_types (input_types : option type_decl) : list string :=
  match input_types with
  | None => []
  | Some (TStr EmptyString) => []
  | Some (TStr s) => [s]
  | Some (TList l) => l
  end.

(** [f'Data types "{input_types}" for field {field_name} is not yet supported.'] *)
Definition unsupported_message (input_types : list string) (field_name : string) : string :=
  "Data types " +:+ PyStr.chr PyStr.dquote +:+ py_repr (VList (map VStr input_types))
  +:+ PyStr.chr PyStr.dquote +:+ " for field " +:+ field_name +:+ " is not yet supported.".

Section Resolver.
Context {order : PySetOrder}.

Definition _field_type_to_pyarrow_field (field_name : string) (input_types : option type_decl)
  : result pa.Field :=
  let input_types := normalize_types input_types in
  let types_uppercase : gset string := list_to_set (map PyStr.upper input_types) in
  let nullable := bool_decide ("NULL" ∈ types_uppercase) in
  let types_uppercase := types_uppercase ∖ {["NULL"]} in
  let input_type :=
    match set_iter (map PyStr.upper input_types) types_uppercase with
    | t :: _ => t
    | [] => ""
    end in
  match dict_get FIELD_TYPE_TO_PYARROW input_type with
  | None => Raise (NotImplementedError (unsupported_message input_types field_name))
  | Some pyarrow_type => Ok (pa.field field_name pyarrow_type nullable)
  end.

(** The list comprehension of [flatten_schema_to_pyarrow_schema]:
    [flatten_schema_dictionary[field_name]] raises [KeyError] on a missing
    key, and the first exception ends the comprehension. *)
Fixpoint resolve_fields (flatten_schema_dictionary : flat_schema)
    (fields_ordered : list string) : result (list pa.Field) :=
  match fields_ordered with
  | [] => Ok []
  | field_name :: rest =>
      input_types ← match dict_get flatten_schema_dictionary field_name with
                     | Some t => Ok t
                     | None => Raise (KeyError field_name)
                     end;
      f ← _field_type_to_pyarrow_field field_name input_types;
      fs ← resolve_fields flatten_schema_dictionary rest;
      Ok (f :: fs)
  end.

Definition flatten_schema_to_pyarrow_schema (flatten_schema_dictionary : option flat_schema)
    (fields_ordered : list string) : result pa.Schema :=
  let flatten_schema_dictionary := default [] flatten_schema_dictionary in
  fields ← resolve_fields flatten_schema_dictionary fields_ordered;
  Ok (pa.schema fields).

(** The token the resolver looks up:
    [list(types_uppercase)[0] if types_uppercase else ""], after ["NULL"]
    has been discarded. *)
Definition selected_type (input_types : option type_decl) : string :=
  match set_iter (map PyStr.upper (normalize_types input_types))
          ((list_to_set (map PyStr.upper (normalize_types input_types)) : gset string)
           ∖ {["NULL"]}) with
  | t :: _ => t
  | [] => ""
  end.

(** The exception, if any, that resolving one requested field raises. *)
Definition field_error (d : flat_schema) (field_name : string) : option exn :=
  match dict_get d field_name with
  | None => Some (KeyError field_name)
  | Some t =>
      match _field_type_to_pyarrow_field field_name t with
      | Raise e => Some e
      | Ok _ => None
      end
  end.
End Resolver.

(** ** Reading [flatten_schema]: entries, visited fields *)

(** What one pass of the loop of [flatten_schema] logs, and what it writes
    to [items]. *)
Definition schema_entry_log (parent_key sep : string) (kv : string * decl) : list log_record :=
  let new_key := join_key parent_key sep (fst kv) in
  match decl_type (snd kv) with
  | None => [LogWarning (fst kv) (snd kv)]
  | Some _ => []
  end ++
  if type_contains "object" (decl_type (snd kv))
  then fst (flatten_schema (decl_properties (snd kv)) new_key sep)
  else [].

Definition schema_entry_items (parent_key sep : string) (kv : string * decl)
  : list (string * option type_decl) :=
  let new_key := join_key parent_key sep (fst kv) in
  if type_contains "object" (decl_type (snd kv))
  then snd (flatten_schema (decl_properties (snd kv)) new_key sep)
  else [(new_key, decl_type (snd kv))].




(** [field_at sep d parent_key new_key key value]: the loop of
    [flatten_schema], started on [d] under [parent_key] and descending
    through the declarations it takes for objects, visits the pair
    [(key, value)], whose flattened key is [new_key]. *)
Inductive field_at (sep : string) : schema -> string -> string -> string -> decl -> Prop :=
| field_here d parent_key key value :
    In (key, value) d ->
    field_at sep d parent_key (join_key parent_key sep key) key value
| field_under d parent_key key value properties new_key key' value' :
    In (key, value) d ->
    type_contains "object" (decl_type value) = true ->
    decl_properties value = Some properties ->
    field_at sep properties (join_key parent_key sep key) new_key key' value' ->
    field_at sep d parent_key new_key key' value'.

(** [drops_bare_object T T']: [T'] is [T] without one declaration, at any
    depth the loop reaches, that is taken for an object and has no
    ["properties"]. *)
Inductive drops_bare_object : schema -> schema -> Prop :=
| drop_bare_here pre key t rest :
    type_contains "object" t = true ->
    drops_bare_object (pre ++ (key, Decl t None) :: rest) (pre ++ rest)
| drop_bare_under pre key t properties properties' rest :
    type_contains "object" t = true ->
    drops_bare_object properties properties' ->
    drops_bare_object (pre ++ (key, Decl t (Some properties)) :: rest)
                      (pre ++ (key, Decl t (Some properties')) :: rest).

(** The spec's reading of the test for an object: some token of the type
    equals ["object"] once case is ignored. *)
Definition includes_ignoring_case (token : string) (t : option type_decl) : bool :=
  existsb (fun x => String.eqb (PyStr.upper x) (PyStr.upper token)) (normalize_types t).

(** The message the spec describes for an unsupported type: the declared
    types rendered as the caller supplied them ([str] of a string is the
    string, of a list its [repr], of [None] the word [None]). *)
Definition message_as_supplied (input_types : option type_decl) (field_name : string) : string :=
  "Data types " +:+ PyStr.chr PyStr.dquote +:+
  match input_types with
  | None => "None"
  | Some (TStr s) => s
  | Some (TList l) => py_repr (VList (map VStr l))
  end
  +:+ PyStr.chr PyStr.dquote +:+ " for field " +:+ field_name +:+ " is not yet supported.".

(** ** Induction over nested records and schemas *)

Section ValueInduction.
Variable P : value -> Prop.
Hypothesis P_none : P VNone.
Hypothesis P_bool : forall b, P (VBool b).
Hypothesis P_int : forall z, P (VInt z).
Hypothesis P_float : forall r, P (VFloat r).
Hypothesis P_str : forall s, P (VStr s).
Hypothesis P_list : forall l, Forall P l -> P (VList l).
Hypothesis P_dict : forall d, Forall (fun kv => P (snd kv)) d -> P (VDict d).

Fixpoint value_nested_ind (v : value) : P v :=
  match v with
  | VNone => P_none
  | VBool b => P_bool b
  | VInt z => P_int z
  | VFloat r => P_float r
  | VStr s => P_str s
  | VList l =>
      P_list l ((fix all (xs : list value) : Forall P xs :=
                   match xs with
                   | [] => @List.Forall_nil _ P
                   | x :: xs' => @List.Forall_cons _ P x xs' (value_nested_ind x) (all xs')
                   end) l)
  | VDict d =>
      P_dict d ((fix all (kvs : list (string * value)) : Forall (fun kv => P (snd kv)) kvs :=
                   match kvs with
                   | [] => @List.Forall_nil _ _
                   | kv :: kvs' =>
                       @List.Forall_cons _ (fun kv => P (snd kv)) kv kvs'
                         (value_nested_ind (snd kv)) (all kvs')
                   end) d)
  end.
End ValueInduction.

Section DeclInduction.
Variable P : decl -> Prop.
Hypothesis P_decl :
  forall t properties,
    match properties with
    | Some d => Forall (fun kv => P (snd kv)) d
    | None => True
    end -> P (Decl t properties).

Fixpoint decl_nested_ind (value : decl) : P value :=
  match value with
  | Decl t properties =>
      P_decl t properties
        match properties with
        | Some d =>
            (fix all (kvs : list (string * decl)) : Forall (fun kv => P (snd kv)) kvs :=
               match kvs with
               | [] => @List.Forall_nil _ _
               | kv :: kvs' =>
                   @List.Forall_cons _ (fun kv => P (snd kv)) kv kvs'
                     (decl_nested_ind (snd kv)) (all kvs')
               end) d
        | None => I
        end
  end.
End DeclInduction.

(** ** Records that follow a schema *)

(** [conforms R T]: every key of the record [R] is declared in [T]; a key
    holding a nested mapping is declared as an object (as [flatten_schema]
    tests it) whose [properties] the nested mapping follows in turn, and a
    key holding anything else is declared as something [flatten_schema]
    does not take for an object. *)
Inductive conforms : record -> schema -> Prop :=
| conforms_nil T : conforms [] T
| conforms_leaf k v R T value :
    is_mapping v = false ->
    In (k, value) T ->
    type_contains "object" (decl_type value) = false ->
    conforms R T ->
    conforms ((k, v) :: R) T
| conforms_nested k d' R T value properties :
    In (k, value) T ->
    type_contains "object" (decl_type value) = true ->
    decl_properties value = Some properties ->
    conforms d' properties ->
    conforms R T ->
    conforms ((k, VDict d') :: R) T.

(** ** Iteration orders that start at a chosen element *)



(** ** The leaves of a record and of a schema, in iteration order *)

(** [record_leaves R parent_key sep]: for every value of [R] that is not a
    mapping, at any depth and in the order of iteration, its flattened key
    and the value [flatten] stores for it. *)
Definition leaves_body (rec : value -> string -> list (string * value))
    (d : record) (parent_key sep : string) : list (string * value) :=
  flat_map (fun kv =>
    let new_key := join_key parent_key sep (fst kv) in
    match snd kv with
    | VDict _ => rec (snd kv) new_key
    | v => [(new_key, leaf_value v)]
    end) d.

Fixpoint leaves_of (v : value) (parent_key sep : string) {struct v} : list (string * value) :=
  match v with
  | VDict d => leaves_body (fun v' k' => leaves_of v' k' sep) d parent_key sep
  | _ => []
  end.

Definition record_leaves (R : record) (parent_key sep : string) : list (string * value) :=
  leaves_body (fun v k => leaves_of v k sep) R parent_key sep.

(** [schema_leaves T parent_key sep]: for every declaration the walk of
    [flatten_schema] reaches and does not take for an object, in the order
    of iteration, its flattened key and its raw type. *)
Definition schema_leaves_body (rec : decl -> string -> list (string * option type_decl))
    (d : schema) (parent_key sep : string) : list (string * option type_decl) :=
  flat_map (fun kv =>
    let new_key := join_key parent_key sep (fst kv) in
    if type_contains "object" (decl_type (snd kv))
    then rec (snd kv) new_key
    else [(new_key, decl_type (snd kv))]) d.

Fixpoint schema_leaves_of (value : decl) (parent_key sep : string) {struct value}
  : list (string * option type_decl) :=
  match value with
  | Decl _ (Some d) =>
      schema_leaves_body (fun v k => schema_leaves_of v k sep) d parent_key sep
  | Decl _ None => []
  end.

Definition schema_leaves (T : schema) (parent_key sep : string)
  : list (string * option type_decl) :=
  schema_leaves_body (fun v k => schema_leaves_of v k sep) T parent_key sep.

(** * Properties *)

(** ** The examples of the docstrings *)

Example flatten_docstring :
  flatten (Some [("key_1", VInt 1);
                 ("key_2", VDict [("key_3", VInt 2);
                                  ("key_4", VDict [("key_5", VInt 3);
                                                   ("key_6", VList [VStr "10"; VStr "11"])])])])
          "" "__"
  = [("key_1", VInt 1); ("key_2__key_3", VInt 2); ("key_2__key_4__key_5", VInt 3);
     ("key_2__key_4__key_6", VStr "['10', '11']")].
Proof. reflexivity. Qed.

(** The ["items"] of [key_6] is a key [flatten_schema] never reads. *)
Example flatten_schema_docstring :
  flatten_schema
    (Some [("key_1", Decl (Some (TList ["null"; "integer"])) None);
           ("key_2",
            Decl (Some (TList ["null"; "object"]))
              (Some [("key_3", Decl (Some (TList ["null"; "string"])) None);
                     ("key_4",
                      Decl (Some (TList ["null"; "object"]))
                        (Some [("key_5", Decl (Some (TList ["null"; "integer"])) None);
                               ("key_6", Decl (Some (TList ["null"; "array"])) None)]))]))])
    "" "__"
  = ([], [("key_1", Some (TList ["null"; "integer"]));
          ("key_2__key_3", Some (TList ["null"; "string"]));
          ("key_2__key_4__key_5", Some (TList ["null"; "integer"]));
          ("key_2__key_4__key_6", Some (TList ["null"; "array"]))]).
Proof. reflexivity. Qed.

Example flatten_schema_to_pyarrow_schema_docstring :
  @flatten_schema_to_pyarrow_schema elements_order
    (Some [("key_1", Some (TList ["null"; "integer"]));
           ("key_2__key_3", Some (TList ["null"; "string"]));
           ("key_2__key_4__key_5", Some (TList ["null"; "integer"]));
           ("key_2__key_4__key_6", Some (TList ["null"; "array"]))])
    ["key_1"; "key_2__key_3"; "key_2__key_4__key_5"; "key_2__key_4__key_6"]
  = Ok [pa.field "key_1" pa.int64 true;
        pa.field "key_2__key_3" pa.string true;
        pa.field "key_2__key_4__key_5" pa.int64 true;
        pa.field "key_2__key_4__key_6" pa.string true].
Proof. vm_compute. reflexivity. Qed.

(** A single token is searched as a string: ["object"] is found in it as a
    substring; a list is searched for an equal element. *)
Example type_contains_examples :
  type_contains "object" (Some (TStr "object")) = true
  /\ type_contains "object" (Some (TStr "objects")) = true
  /\ type_contains "object" (Some (TStr "obj")) = false
  /\ type_contains "object" (Some (TList ["null"; "object"])) = true
  /\ type_contains "object" (Some (TList ["null"; "objects"])) = false
  /\ type_contains "object" None = false.
Proof. repeat split. Qed.

Example repr_examples :
  py_repr (VList [VStr "10"; VStr "11"]) = "['10', '11']"
  /\ py_repr (VList [VInt (-12); VNone; VBool true; VList []]) = "[-12, None, True, []]"
  /\ py_repr (VList [VDict [("k", VFloat "1.5")]]) = "[{'k': 1.5}]"
  /\ py_repr (VStr "it's") = PyStr.chr PyStr.dquote +:+ "it's" +:+ PyStr.chr PyStr.dquote.
Proof. repeat split. Qed.

(** To prove [P] of every record, assume it of the mappings nested in it. *)
Lemma record_nested_ind (P : record -> Prop) :
  (forall d, (forall k d', In (k, VDict d') d -> P d') -> P d) ->
  forall d, P d.
Proof.
  intros step d.
  enough (H : forall v, match v with VDict d' => P d' | _ => True end) by exact (H (VDict d)).
  induction v using value_nested_ind; try exact I.
  apply step. intros k d' Hin.
  rewrite List.Forall_forall in H. exact (H (k, VDict d') Hin).
Qed.

(** To prove [P] of every schema, assume it of the [properties] of its
    declarations. *)
Lemma schema_nested_ind (P : schema -> Prop) :
  (forall d,
      (forall key value properties,
          In (key, value) d -> decl_properties value = Some properties -> P properties) ->
      P d) ->
  forall d, P d.
Proof.
  intros step d.
  enough (H : forall value,
             match decl_properties value with Some d' => P d' | None => True end)
    by exact (H (Decl None (Some d))).
  apply decl_nested_ind. intros t properties H. simpl.
  destruct properties as [d'|]; [|exact I].
  apply step. intros key value props Hin Hprops.
  rewrite List.Forall_forall in H. specialize (H (key, value) Hin). simpl in H.
  rewrite Hprops in H. exact H.
Qed.

(** ** Dictionaries *)

Section DictFacts.
Context {V : Type}.
Implicit Types (d : dict V) (l : list (string * V)) (k : string) (v : V).

Lemma dict_set_fresh d k v :
  ~ In k (dict_keys d) -> dict_set d k v = d ++ [(k, v)].
Proof.
  induction d as [|[k' v'] d IH]; simpl; intros Hk; [reflexivity|].
  destruct (String.eqb_spec k' k) as [->|Hne].
  - exfalso. apply Hk. now left.
  - rewrite IH; [reflexivity|]. intros Hin. apply Hk. now right.
Qed.

Lemma dict_set_keys d k v k0 :
  In k0 (dict_keys (dict_set d k v)) <-> k0 = k \/ In k0 (dict_keys d).
Proof.
  induction d as [|[k' v'] d IH]; simpl.
  - intuition congruence.
  - destruct (String.eqb_spec k' k) as [->|Hne]; simpl.
    + intuition congruence.
    + rewrite IH. intuition congruence.
Qed.

Lemma dict_set_In d k v k0 v0 :
  In (k0, v0) (dict_set d k v) -> (k0, v0) = (k, v) \/ In (k0, v0) d.
Proof.
  induction d as [|[k' v'] d IH]; simpl.
  - intuition congruence.
  - destruct (String.eqb_spec k' k) as [->|Hne]; simpl.
    + intros [H|H]; [left; congruence | right; now right].
    + intros [H|H]; [right; now left |].
      destruct (IH H) as [H'|H']; [now left | right; now right].
Qed.

Lemma dict_update_app d l1 l2 :
  dict_update d (l1 ++ l2) = dict_update (dict_update d l1) l2.
Proof. unfold dict_update. apply fold_left_app. Qed.

Lemma dict_update_cons d kv l :
  dict_update d (kv :: l) = dict_update (dict_set d (fst kv) (snd kv)) l.
Proof. reflexivity. Qed.

Lemma dict_update_keys l : forall d k0,
  In k0 (dict_keys (dict_update d l)) <-> In k0 (dict_keys d) \/ In k0 (map fst l).
Proof.
  induction l as [|[k v] l IH]; intros d k0.
  - simpl. intuition.
  - rewrite dict_update_cons, IH, dict_set_keys. simpl. intuition.
Qed.

Lemma dict_update_In l : forall d k0 v0,
  In (k0, v0) (dict_update d l) -> In (k0, v0) d \/ In (k0, v0) l.
Proof.
  induction l as [|[k v] l IH]; intros d k0 v0 H.
  - now left.
  - rewrite dict_update_cons in H. apply IH in H as [H|H]; [|right; now right].
    apply dict_set_In in H as [H|H]; [right; left; now symmetry | now left].
Qed.

Lemma dict_update_fresh l : forall d,
  List.NoDup (map fst (d ++ l)) -> dict_update d l = d ++ l.
Proof.
  induction l as [|[k v] l IH]; intros d Hnd.
  - simpl. now rewrite app_nil_r.
  - rewrite dict_update_cons. simpl fst; simpl snd.
    assert (Hk : ~ In k (dict_keys d)).
    { rewrite map_app in Hnd. simpl in Hnd.
      apply NoDup_remove_2 in Hnd. intros Hin. apply Hnd.
      apply in_or_app. now left. }
    rewrite (dict_set_fresh d k v Hk), IH.
    + now rewrite <- app_assoc.
    + now rewrite <- app_assoc.
Qed.

Lemma dict_of_items_NoDup l :
  List.NoDup (map fst l) -> dict_of_items l = l.
Proof. intros H. unfold dict_of_items. now rewrite dict_update_fresh. Qed.

Lemma dict_of_items_In l k v :
  In (k, v) (dict_of_items l) -> In (k, v) l.
Proof.
  intros H. apply dict_update_In in H as [H|H]; [destruct H | exact H].
Qed.

Lemma dict_of_items_keys l k :
  In k (dict_keys (dict_of_items l)) <-> In k (map fst l).
Proof. unfold dict_of_items. rewrite dict_update_keys. simpl. intuition. Qed.

Lemma dict_get_Some_In d k v : dict_get d k = Some v -> In (k, v) d.
Proof.
  induction d as [|[k' v'] d IH]; simpl; [discriminate|].
  destruct (String.eqb_spec k' k) as [->|Hne].
  - intros [= ->]. now left.
  - intros H. right. now apply IH.
Qed.

Lemma dict_get_None d k : dict_get d k = None <-> ~ In k (dict_keys d).
Proof.
  induction d as [|[k' v'] d IH]; simpl; [intuition|].
  destruct (String.eqb_spec k' k) as [->|Hne].
  - split; [discriminate | intros H; exfalso; apply H; now left].
  - rewrite IH. intuition.
Qed.

(** A key all of whose entries hold [v] reads as [v]. *)
Lemma dict_get_unique d k v :
  In k (dict_keys d) -> (forall v', In (k, v') d -> v' = v) -> dict_get d k = Some v.
Proof.
  intros Hk Hall. destruct (dict_get d k) as [v'|] eqn:E.
  - f_equal. apply Hall. now apply dict_get_Some_In.
  - apply dict_get_None in E. contradiction.
Qed.
End DictFacts.

Lemma fold_left_ext {A B : Type} (f g : A -> B -> A) (l : list B) :
  (forall a b, In b l -> f a b = g a b) -> forall a, fold_left f l a = fold_left g l a.
Proof.
  induction l as [|b l IH]; intros Hfg a; simpl; [reflexivity|].
  rewrite Hfg by now left. apply IH. intros a' b' Hb'. apply Hfg. now right.
Qed.

Lemma fold_left_extend {A B : Type} (f : B -> list A) (l : list B) : forall acc,
  fold_left (fun acc b => acc ++ f b) l acc = acc ++ flat_map f l.
Proof.
  induction l as [|b l IH]; intros acc; simpl.
  - now rewrite app_nil_r.
  - now rewrite IH, app_assoc.
Qed.

Lemma in_keys_flat_map {A V : Type} (f : A -> list (string * V)) (l : list A) (k : string) :
  In k (map fst (flat_map f l)) <-> exists a, In a l /\ In k (map fst (f a)).
Proof.
  rewrite in_map_iff. split.
  - intros [[k' v] [Hk Hin]]. simpl in Hk. subst k'.
    apply in_flat_map in Hin as [a [Ha Hin]].
    exists a. split; [exact Ha|]. apply in_map_iff. now exists (k, v).
  - intros [a [Ha Hin]]. apply in_map_iff in Hin as [[k' v] [Hk Hin]].
    exists (k', v). split; [exact Hk|]. apply in_flat_map. now exists a.
Qed.

(** ** [flatten], unfolded *)

Lemma flatten_None parent_key sep : flatten None parent_key sep = [].
Proof. reflexivity. Qed.

Lemma flatten_eq d parent_key sep :
  flatten (Some d) parent_key sep = dict_of_items (flat_map (flatten_entry parent_key sep) d).
Proof.
  unfold flatten, flatten_body. f_equal.
  transitivity (fold_left (fun items kv => items ++ flatten_entry parent_key sep kv) d []).
  - destruct d as [|kv0 d0]; [reflexivity|].
    apply fold_left_ext. intros items [k v] _. destruct v; reflexivity.
  - now rewrite fold_left_extend.
Qed.

Lemma flatten_entry_leaf parent_key sep k v :
  is_mapping v = false ->
  flatten_entry parent_key sep (k, v) = [(join_key parent_key sep k, leaf_value v)].
Proof. destruct v; simpl; intros H; try reflexivity; discriminate. Qed.

Lemma flatten_entry_empty parent_key sep k :
  flatten_entry parent_key sep (k, VDict []) = [].
Proof. reflexivity. Qed.

Lemma leaf_at_inv sep d parent_key new_key v :
  leaf_at sep d parent_key new_key v ->
  (exists k, In (k, v) d /\ is_mapping v = false /\ new_key = join_key parent_key sep k)
  \/ (exists k d', In (k, VDict d') d /\ leaf_at sep d' (join_key parent_key sep k) new_key v).
Proof. destruct 1; [left | right]; eauto 10. Qed.

Lemma flatten_sound sep : forall d parent_key new_key x,
  In (new_key, x) (flatten (Some d) parent_key sep) ->
  exists v, leaf_at sep d parent_key new_key v /\ x = leaf_value v.
Proof.
  induction d as [d IH] using record_nested_ind. intros parent_key new_key x Hin.
  rewrite flatten_eq in Hin. apply dict_of_items_In in Hin.
  apply in_flat_map in Hin as [[k v] [Hkv Hin]].
  destruct (is_mapping v) eqn:Hmap.
  - destruct v; try discriminate. simpl in Hin.
    destruct (IH k d0 Hkv _ _ _ Hin) as [v [Hleaf Hx]].
    exists v. split; [|exact Hx]. now apply leaf_under with k d0.
  - rewrite flatten_entry_leaf in Hin by exact Hmap.
    destruct Hin as [[= <- <-]|[]].
    exists v. split; [|reflexivity]. now apply leaf_here.
Qed.

Lemma flatten_complete sep d parent_key new_key v :
  leaf_at sep d parent_key new_key v ->
  In new_key (dict_keys (flatten (Some d) parent_key sep)).
Proof.
  induction 1 as [d parent_key k v Hin Hmap | d parent_key k d' new_key v Hin _ IH];
    rewrite flatten_eq; apply dict_of_items_keys; apply in_keys_flat_map.
  - exists (k, v). split; [exact Hin|].
    rewrite flatten_entry_leaf by exact Hmap. now left.
  - exists (k, VDict d'). split; [exact Hin|]. exact IH.
Qed.

Lemma flat_map_flatten_entry_flat sep : forall R,
  is_flat R = true ->
  flat_map (flatten_entry "" sep) R = map (fun kv => (fst kv, leaf_value (snd kv))) R.
Proof.
  induction R as [|[k v] R IH]; simpl; intros H; [reflexivity|].
  apply andb_prop in H as [Hv HR]. apply negb_true_iff in Hv.
  rewrite flatten_entry_leaf by exact Hv. simpl. now rewrite IH.
Qed.

Lemma map_leaf_value_no_list : forall R,
  has_no_list R = true -> map (fun kv => (fst kv, leaf_value (snd kv))) R = R.
Proof.
  induction R as [|[k v] R IH]; simpl; intros H; [reflexivity|].
  apply andb_prop in H as [Hv HR]. rewrite IH by exact HR.
  destruct v; try reflexivity; discriminate.
Qed.

(** ** Claims about [flatten] *)

(** C5.  Every entry of [flatten(R)] comes from a leaf of [R] and holds the
    leaf's value, a list replaced by its string rendering [str(v)] and any
    other value as it is; a leaf whose flattened key no other leaf shares is
    stored under that key in this form; and
    [flatten({"a": {"b": ["10", "11"]}})] with separator ["__"] is
    [{"a__b": "['10', '11']"}]. *)
Theorem flatten_stringifies_list_leaves :
  (forall R parent_key sep new_key x,
      In (new_key, x) (flatten (Some R) parent_key sep) ->
      exists v, leaf_at sep R parent_key new_key v /\
                x = match v with VList _ => VStr (py_repr v) | _ => v end)
  /\ (forall R parent_key sep new_key v,
         leaf_at sep R parent_key new_key v ->
         (forall v', leaf_at sep R parent_key new_key v' -> v' = v) ->
         dict_get (flatten (Some R) parent_key sep) new_key
         = Some (match v with VList _ => VStr (py_repr v) | _ => v end))
  /\ flatten (Some [("a", VDict [("b", VList [VStr "10"; VStr "11"])])]) "" "__"
     = [("a__b", VStr "['10', '11']")].
Proof.
  split; [|split].
  - intros R parent_key sep new_key x Hin. now apply flatten_sound.
  - intros R parent_key sep new_key v Hleaf Huniq.
    apply dict_get_unique.
    + now apply flatten_complete with v.
    + intros x Hin. apply flatten_sound in Hin as [v' [Hleaf' ->]].
      now rewrite (Huniq v' Hleaf').
  - vm_compute. reflexivity.
Qed.

Lemma flatten_stringifies_list_leaves_witness :
  dict_get (flatten (Some [("a", VDict [("b", VList [VStr "10"; VStr "11"])]); ("c", VInt 7)])
              "" "__") "a__b"
  = Some (VStr "['10', '11']").
Proof.
  refine (proj1 (proj2 flatten_stringifies_list_leaves)
            [("a", VDict [("b", VList [VStr "10"; VStr "11"])]); ("c", VInt 7)]
            "" "__" "a__b" (VList [VStr "10"; VStr "11"]) _ _).
  - apply (leaf_under "__" _ "" "a" [("b", VList [VStr "10"; VStr "11"])]); [now left|].
    apply (leaf_here "__" [("b", VList [VStr "10"; VStr "11"])] "a" "b"); [now left | reflexivity].
  - intros v' Hleaf.
    apply leaf_at_inv in Hleaf as [(k & Hin & Hmap & Hk) | (k & d' & Hin & Hleaf)].
    + destruct Hin as [[= <- <-]|[[= <- <-]|[]]]; vm_compute in Hk; discriminate.
    + destruct Hin as [[= <- <-]|[[=]|[]]].
      apply leaf_at_inv in Hleaf as [(k & Hin & _ & _) | (k & d' & Hin & _)];
        destruct Hin as [[= <- <-]|[]]; reflexivity.
Defined.

(** C6.  [flatten] of a mapping none of whose values is a nested mapping
    returns the same keys in the same order, each with its value, a list
    value being replaced by its string rendering (the type normalization);
    without list values the mapping comes back unchanged. *)
Theorem flatten_flat_mapping_unchanged (R : record) (sep : string) :
  List.NoDup (dict_keys R) ->
  is_flat R = true ->
  flatten (Some R) "" sep = map (fun kv => (fst kv, leaf_value (snd kv))) R
  /\ (has_no_list R = true -> flatten (Some R) "" sep = R).
Proof.
  intros Hnd Hflat.
  assert (E : flatten (Some R) "" sep = map (fun kv => (fst kv, leaf_value (snd kv))) R).
  { rewrite flatten_eq, flat_map_flatten_entry_flat by exact Hflat.
    apply dict_of_items_NoDup. rewrite map_map. simpl. exact Hnd. }
  split; [exact E|].
  intros Hnl. rewrite E. now apply map_leaf_value_no_list.
Qed.

Lemma flatten_flat_mapping_unchanged_witness :
  flatten (Some [("a", VInt 1); ("b", VList [VStr "x"]); ("c", VNone)]) "" "__"
  = [("a", VInt 1); ("b", VStr "['x']"); ("c", VNone)].
Proof.
  refine (proj1 (flatten_flat_mapping_unchanged
                   [("a", VInt 1); ("b", VList [VStr "x"]); ("c", VNone)] "__" _ _)).
  - repeat constructor; simpl; intuition discriminate.
  - reflexivity.
Defined.

(** C10.  A key whose value is an empty mapping, at any depth of a record,
    adds nothing to [flatten]: the result is that of the record without the
    key.  In particular [flatten({"a": {}})] is the empty mapping. *)
Theorem flatten_drops_empty_mapping (R R' : record) (parent_key sep : string) :
  drops_empty_mapping R R' ->
  flatten (Some R) parent_key sep = flatten (Some R') parent_key sep
  /\ flatten (Some [("a", VDict [])]) "" "__" = [].
Proof.
  intros Hdrop. split; [|reflexivity].
  revert parent_key.
  induction Hdrop as [pre k rest | pre k d d' rest _ IH]; intros parent_key;
    rewrite !flatten_eq, !flat_map_app; simpl.
  - reflexivity.
  - unfold flatten_entry at 2 4. simpl. now rewrite IH.
Qed.

Lemma flatten_drops_empty_mapping_witness :
  drops_empty_mapping [("id", VInt 5); ("meta", VDict [("k", VDict [])])]
                      [("id", VInt 5); ("meta", VDict [])]
  /\ flatten (Some [("id", VInt 5); ("meta", VDict [("k", VDict [])])]) "" "__"
     = [("id", VInt 5)].
Proof.
  assert (H : drops_empty_mapping [("id", VInt 5); ("meta", VDict [("k", VDict [])])]
                                  [("id", VInt 5); ("meta", VDict [])]).
  { exact (drop_under [("id", VInt 5)] "meta" [("k", VDict [])] [] []
             (drop_here [] "k" [])). }
  split; [exact H|].
  exact (eq_trans (proj1 (flatten_drops_empty_mapping _ _ "" "__" H)) eq_refl).
Defined.

(** ** [flatten_schema], unfolded *)

Lemma fold_left_log_items {B L V : Type} (log : B -> list L) (items : B -> list (string * V))
    (l : list B) : forall st,
  fold_left (fun st b => (fst st ++ log b, dict_update (snd st) (items b))) l st
  = (fst st ++ flat_map log l, dict_update (snd st) (flat_map items l)).
Proof.
  induction l as [|b l IH]; intros [lg it]; simpl.
  - now rewrite app_nil_r.
  - rewrite IH. simpl. now rewrite app_assoc, dict_update_app.
Qed.


Lemma type_contains_Some token t :
  type_contains token t = true -> exists t', t = Some t'.
Proof. destruct t as [t'|]; [eauto | discriminate]. Qed.

Lemma flatten_schema_None parent_key sep : flatten_schema None parent_key sep = ([], []).
Proof. reflexivity. Qed.

Lemma flatten_schema_eq d parent_key sep :
  flatten_schema (Some d) parent_key sep
  = (flat_map (schema_entry_log parent_key sep) d,
     dict_of_items (flat_map (schema_entry_items parent_key sep) d)).
Proof.
  unfold flatten_schema, flatten_schema_body.
  destruct d as [|kv0 d0]; [reflexivity|].
  transitivity
    (fold_left (fun st kv => (fst st ++ schema_entry_log parent_key sep kv,
                              dict_update (snd st) (schema_entry_items parent_key sep kv)))
       (kv0 :: d0) ([], [])).
  - apply fold_left_ext. intros [lg it] [key [t properties]] _.
    unfold schema_entry_log, schema_entry_items.
    cbn [fst snd decl_type decl_properties flatten_schema_properties].
    fold (flatten_schema properties (join_key parent_key sep key) sep).
    destruct t as [t|].
    + destruct (type_contains "object" (Some t)); cbn [app]; [reflexivity|].
      now rewrite app_nil_r.
    + reflexivity.
  - now rewrite fold_left_log_items.
Qed.


Section DictInvariant.
Context {V : Type}.
Implicit Types (d : dict V) (l : list (string * V)).

Lemma dict_set_NoDup d k v :
  List.NoDup (dict_keys d) -> List.NoDup (dict_keys (dict_set d k v)).
Proof.
  induction d as [|[k' v'] d IH]; simpl; intros Hnd.
  - constructor; [intros []|constructor].
  - inversion Hnd as [|? ? Hk' Hd]; subst.
    destruct (String.eqb_spec k' k) as [->|Hne]; simpl.
    + now constructor.
    + constructor; [|now apply IH].
      fold (dict_keys (dict_set d k v)). rewrite dict_set_keys.
      intros [->|Hin]; [now apply Hne | now apply Hk'].
Qed.

Lemma dict_update_NoDup l : forall d,
  List.NoDup (dict_keys d) -> List.NoDup (dict_keys (dict_update d l)).
Proof.
  induction l as [|[k v] l IH]; intros d Hnd; [exact Hnd|].
  rewrite dict_update_cons. apply IH. now apply dict_set_NoDup.
Qed.

Lemma dict_of_items_keys_NoDup l : List.NoDup (dict_keys (dict_of_items l)).
Proof. apply dict_update_NoDup. constructor. Qed.

Lemma dict_of_items_idem l : dict_of_items (dict_of_items l) = dict_of_items l.
Proof. apply dict_of_items_NoDup. apply dict_of_items_keys_NoDup. Qed.
End DictInvariant.

(** ** Dictionaries: reading after writing, and merging *)

Section DictMerge.
Context {V : Type}.
Implicit Types (d e : dict V) (l : list (string * V)) (k : string) (v : V).

Lemma dict_get_set d k v k' :
  dict_get (dict_set d k v) k' = if String.eqb k k' then Some v else dict_get d k'.
Proof.
  induction d as [|[k0 v0] d IH]; simpl; [reflexivity|].
  destruct (String.eqb_spec k0 k) as [->|Hne]; simpl.
  - destruct (String.eqb k k'); reflexivity.
  - rewrite IH. destruct (String.eqb_spec k0 k') as [->|Hne'].
    + destruct (String.eqb_spec k k'); [congruence | reflexivity].
    + reflexivity.
Qed.

Lemma dict_get_update_NoDup e : forall d k,
  List.NoDup (dict_keys e) ->
  dict_get (dict_update d e) k
  = match dict_get e k with Some v => Some v | None => dict_get d k end.
Proof.
  induction e as [|[k0 v0] e IH]; intros d k Hnd; [reflexivity|].
  inversion Hnd as [|? ? Hk0 Hnd']; subst.
  rewrite dict_update_cons, IH by exact Hnd'. cbn [fst snd dict_get].
  rewrite dict_get_set.
  destruct (String.eqb_spec k0 k) as [->|Hne]; [|reflexivity].
  apply dict_get_None in Hk0. now rewrite Hk0.
Qed.

Lemma dict_set_overwrite d k v0 v : dict_set (dict_set d k v0) k v = dict_set d k v.
Proof.
  induction d as [|[k0 w] d IH]; simpl.
  - now rewrite String.eqb_refl.
  - destruct (String.eqb_spec k0 k) as [->|Hne]; simpl.
    + now rewrite String.eqb_refl.
    + destruct (String.eqb_spec k0 k); [contradiction|]. now rewrite IH.
Qed.

Lemma dict_set_comm d k v k' v' :
  In k (dict_keys d) -> k <> k' ->
  dict_set (dict_set d k v) k' v' = dict_set (dict_set d k' v') k v.
Proof.
  induction d as [|[k0 w] d IH]; simpl; intros Hin Hne; [destruct Hin|].
  destruct (String.eqb_spec k0 k) as [->|Hk]; simpl.
  - destruct (String.eqb_spec k k') as [|_]; [contradiction|]. simpl.
    now rewrite String.eqb_refl.
  - destruct Hin as [Hin|Hin]; [contradiction|].
    destruct (String.eqb_spec k0 k') as [->|Hk']; simpl.
    + destruct (String.eqb_spec k' k); [congruence | reflexivity].
    + destruct (String.eqb_spec k0 k); [contradiction|]. now rewrite IH.
Qed.

Lemma dict_update_set_present e : forall d k v,
  ~ In k (map fst e) -> In k (dict_keys d) ->
  dict_update (dict_set d k v) e = dict_set (dict_update d e) k v.
Proof.
  induction e as [|[k' v'] e IH]; intros d k v Hk Hin; [reflexivity|].
  rewrite !dict_update_cons. cbn [fst snd].
  assert (Hne : k <> k') by (intros ->; apply Hk; now left).
  rewrite dict_set_comm by assumption.
  apply IH.
  - intros H. apply Hk. now right.
  - apply dict_set_keys. now right.
Qed.

Lemma dict_update_set e : forall d k v,
  List.NoDup (dict_keys e) ->
  dict_update d (dict_set e k v) = dict_set (dict_update d e) k v.
Proof.
  induction e as [|[k0 v0] e IH]; intros d k v Hnd; [reflexivity|].
  inversion Hnd as [|? ? Hk0 Hnd']; subst. simpl dict_set.
  destruct (String.eqb_spec k0 k) as [->|Hne].
  - rewrite !dict_update_cons. cbn [fst snd].
    rewrite <- (dict_set_overwrite d k v0 v).
    apply dict_update_set_present; [exact Hk0|].
    apply dict_set_keys. now left.
  - rewrite !dict_update_cons. cbn [fst snd]. now apply IH.
Qed.

(** Updating with [dict(items)] is updating with the items one by one. *)
Lemma dict_update_dict_of_items l : forall d,
  dict_update d (dict_of_items l) = dict_update d l.
Proof.
  induction l as [|[k v] l IH] using rev_ind; intros d; [reflexivity|].
  assert (E : dict_of_items (l ++ [(k, v)]) = dict_set (dict_of_items l) k v).
  { unfold dict_of_items. now rewrite dict_update_app. }
  rewrite E, dict_update_set by apply dict_of_items_keys_NoDup.
  now rewrite IH, dict_update_app.
Qed.

Lemma dict_of_items_app l1 l2 :
  dict_of_items (l1 ++ l2) = dict_update (dict_of_items l1) (dict_of_items l2).
Proof.
  rewrite dict_update_dict_of_items. unfold dict_of_items. apply dict_update_app.
Qed.
End DictMerge.

Lemma flat_map_ext_In {A B : Type} (f g : A -> list B) (l : list A) :
  (forall a, In a l -> f a = g a) -> flat_map f l = flat_map g l.
Proof.
  induction l as [|a l IH]; intros Hfg; simpl; [reflexivity|].
  rewrite Hfg by now left. f_equal. apply IH. intros a' Ha'. apply Hfg. now right.
Qed.

(** ** Facts about [flatten_schema] *)

Lemma flatten_schema_keys_NoDup dictionary parent_key sep :
  List.NoDup (dict_keys (snd (flatten_schema dictionary parent_key sep))).
Proof.
  destruct dictionary as [d|].
  - rewrite flatten_schema_eq. apply dict_of_items_keys_NoDup.
  - constructor.
Qed.


Lemma flatten_schema_sound sep : forall d parent_key new_key t,
  In (new_key, t) (snd (flatten_schema (Some d) parent_key sep)) ->
  exists key value,
    field_at sep d parent_key new_key key value /\
    type_contains "object" (decl_type value) = false /\
    t = decl_type value.
Proof.
  induction d as [d IH] using schema_nested_ind. intros parent_key new_key t Hin.
  rewrite flatten_schema_eq in Hin. apply dict_of_items_In in Hin.
  apply in_flat_map in Hin as [[key value] [Hkv Hin]].
  unfold schema_entry_items in Hin. cbn [fst snd] in Hin.
  destruct (type_contains "object" (decl_type value)) eqn:Hobj.
  - destruct (decl_properties value) as [properties|] eqn:Hprops; [|destruct Hin].
    destruct (IH key value properties Hkv Hprops _ _ _ Hin) as (key' & value' & Hat & Hleaf & Ht).
    exists key', value'. split; [|now split].
    now apply field_under with key value properties.
  - destruct Hin as [[= <- <-]|[]].
    exists key, value. split; [now apply field_here | now split].
Qed.

Lemma flatten_schema_complete sep d parent_key new_key key value :
  field_at sep d parent_key new_key key value ->
  type_contains "object" (decl_type value) = false ->
  In new_key (dict_keys (snd (flatten_schema (Some d) parent_key sep))).
Proof.
  induction 1 as [d parent_key key value Hin
                 | d parent_key key value properties new_key key' value' Hin Hobj Hprops _ IH];
    intros Hleaf; rewrite flatten_schema_eq; apply dict_of_items_keys;
    apply in_keys_flat_map; exists (key, value); (split; [exact Hin|]);
    unfold schema_entry_items; cbn [fst snd].
  - rewrite Hleaf. now left.
  - rewrite Hobj, Hprops. now apply IH.
Qed.

Lemma flatten_schema_warns sep d parent_key new_key key value :
  field_at sep d parent_key new_key key value ->
  decl_type value = None ->
  In (LogWarning key value) (fst (flatten_schema (Some d) parent_key sep)).
Proof.
  induction 1 as [d parent_key key value Hin
                 | d parent_key key value properties new_key key' value' Hin Hobj Hprops _ IH];
    intros Hnone; rewrite flatten_schema_eq; apply in_flat_map;
    exists (key, value); (split; [exact Hin|]);
    unfold schema_entry_log; cbn [fst snd]; apply in_or_app.
  - left. rewrite Hnone. now left.
  - right. rewrite Hobj, Hprops. now apply IH.
Qed.


Lemma schema_entry_object parent_key sep key t properties :
  type_contains "object" t = true ->
  schema_entry_log parent_key sep (key, Decl t properties)
  = fst (flatten_schema properties (join_key parent_key sep key) sep)
  /\ schema_entry_items parent_key sep (key, Decl t properties)
     = snd (flatten_schema properties (join_key parent_key sep key) sep).
Proof.
  intros Hobj. destruct (type_contains_Some _ _ Hobj) as [t' ->].
  unfold schema_entry_log, schema_entry_items.
  cbn [fst snd decl_type decl_properties]. now rewrite Hobj.
Qed.

Lemma flatten_schema_ignores_bare_object sep T T' :
  drops_bare_object T T' ->
  forall parent_key, flatten_schema (Some T) parent_key sep = flatten_schema (Some T') parent_key sep.
Proof.
  induction 1 as [pre key t rest Hobj | pre key t properties properties' rest Hobj _ IH];
    intros parent_key; rewrite !flatten_schema_eq, !flat_map_app; cbn [flat_map].
  - destruct (schema_entry_object parent_key sep key t None Hobj) as [-> ->].
    reflexivity.
  - destruct (schema_entry_object parent_key sep key t (Some properties) Hobj) as [-> ->].
    destruct (schema_entry_object parent_key sep key t (Some properties') Hobj) as [-> ->].
    now rewrite IH.
Qed.

(** ** Facts about the resolver and the builder *)

Section ResolverFacts.
Context {order : PySetOrder}.

Lemma set_iter_empty (inserted : list string) : set_iter inserted ∅ = [].
Proof. apply Permutation_nil_r. now rewrite set_iter_perm, elements_empty. Qed.

Lemma set_iter_singleton (inserted : list string) (x : string) :
  set_iter inserted {[x]} = [x].
Proof. apply Permutation_singleton_r. now rewrite set_iter_perm, elements_singleton. Qed.

Lemma resolver_eq field_name input_types :
  _field_type_to_pyarrow_field field_name input_types
  = match dict_get FIELD_TYPE_TO_PYARROW (selected_type input_types) with
    | None =>
        Raise (NotImplementedError
                 (unsupported_message (normalize_types input_types) field_name))
    | Some pyarrow_type =>
        Ok (pa.field field_name pyarrow_type
              (bool_decide ("NULL" ∈ (list_to_set (map PyStr.upper (normalize_types input_types))
                                       : gset string))))
    end.
Proof. reflexivity. Qed.

Lemma selected_type_one input_types (X : string) :
  (list_to_set (map PyStr.upper (normalize_types input_types)) : gset string) ∖ {["NULL"]}
  = {[X]} ->
  selected_type input_types = X.
Proof. intros H. unfold selected_type. now rewrite H, set_iter_singleton. Qed.

Lemma selected_type_none input_types :
  (list_to_set (map PyStr.upper (normalize_types input_types)) : gset string) ∖ {["NULL"]}
  = ∅ ->
  selected_type input_types = "".
Proof. intros H. unfold selected_type. now rewrite H, set_iter_empty. Qed.


Lemma resolve_fields_cons d field_name rest :
  resolve_fields d (field_name :: rest)
  = match dict_get d field_name with
    | None => Raise (KeyError field_name)
    | Some t =>
        match _field_type_to_pyarrow_field field_name t with
        | Raise e => Raise e
        | Ok f =>
            match resolve_fields d rest with
            | Raise e => Raise e
            | Ok fs => Ok (f :: fs)
            end
        end
    end.
Proof.
  cbn [resolve_fields]. unfold mbind, result_bind.
  destruct (dict_get d field_name); [|reflexivity].
  destruct (_field_type_to_pyarrow_field field_name o); reflexivity.
Qed.

Lemma build_eq types fields_ordered :
  flatten_schema_to_pyarrow_schema types fields_ordered
  = resolve_fields (default [] types) fields_ordered.
Proof.
  unfold flatten_schema_to_pyarrow_schema, mbind, result_bind, pa.schema.
  destruct (resolve_fields (default [] types) fields_ordered); reflexivity.
Qed.

Lemma resolve_fields_first_error d pre field_name post e :
  (forall g, In g pre -> field_error d g = None) ->
  field_error d field_name = Some e ->
  resolve_fields d (pre ++ field_name :: post) = Raise e.
Proof.
  intros Hpre Herr. induction pre as [|g pre IH]; simpl app; rewrite resolve_fields_cons.
  - unfold field_error in Herr. destruct (dict_get d field_name) as [t|]; [|congruence].
    destruct (_field_type_to_pyarrow_field field_name t); congruence.
  - assert (Hg : field_error d g = None) by (apply Hpre; now left).
    unfold field_error in Hg. destruct (dict_get d g) as [t|]; [|discriminate].
    destruct (_field_type_to_pyarrow_field g t); [|discriminate].
    rewrite IH; [reflexivity|]. intros g' Hg'. apply Hpre. now right.
Qed.

Lemma resolve_fields_some_error d fields_ordered field_name :
  In field_name fields_ordered ->
  field_error d field_name <> None ->
  exists e g, In g fields_ordered /\ field_error d g = Some e
              /\ resolve_fields d fields_ordered = Raise e.
Proof.
  induction fields_ordered as [|g fields IH]; intros Hin Herr; [destruct Hin|].
  destruct (field_error d g) as [e|] eqn:Eg.
  - exists e, g. split; [now left|]. split; [exact Eg|].
    apply (resolve_fields_first_error d [] g fields e); [intros ? []|exact Eg].
  - destruct Hin as [->|Hin]; [congruence|].
    destruct (IH Hin Herr) as (e & g' & Hg' & Eg' & Hres).
    exists e, g'. split; [now right|]. split; [exact Eg'|].
    rewrite resolve_fields_cons. unfold field_error in Eg.
    destruct (dict_get d g) as [t|]; [|discriminate].
    destruct (_field_type_to_pyarrow_field g t); [|discriminate].
    now rewrite Hres.
Qed.
End ResolverFacts.

Lemma type_contains_list token tokens :
  type_contains token (Some (TList tokens)) = true <-> In token tokens.
Proof.
  simpl. rewrite existsb_exists. split.
  - intros [x [Hx Heq]]. apply String.eqb_eq in Heq. now subst.
  - intros H. exists token. split; [exact H | apply String.eqb_refl].
Qed.

Lemma resolve_fields_ok `{PySetOrder} d fields_ordered cols :
  resolve_fields d fields_ordered = Ok cols ->
  forall g, In g fields_ordered -> field_error d g = None.
Proof.
  intros Hok g Hg. destruct (field_error d g) as [e|] eqn:E; [|reflexivity].
  destruct (resolve_fields_some_error d fields_ordered g Hg) as (e' & g' & _ & _ & Hres).
  - congruence.
  - congruence.
Qed.

(** ** Claims about the resolver and the builder *)

(** C2.  Whatever the iteration order of sets, field ["x"] resolves with
    types [["null", "integer"]] to (int64, nullable), with the single token
    ["string"] to (string, not nullable), with [[]] to (string, not
    nullable), and with [["null", "array"]] to (string, nullable). *)
Theorem resolver_examples `{PySetOrder} :
  _field_type_to_pyarrow_field "x" (Some (TList ["null"; "integer"]))
  = Ok (pa.field "x" pa.int64 true)
  /\ _field_type_to_pyarrow_field "x" (Some (TStr "string"))
     = Ok (pa.field "x" pa.string false)
  /\ _field_type_to_pyarrow_field "x" (Some (TList []))
     = Ok (pa.field "x" pa.string false)
  /\ _field_type_to_pyarrow_field "x" (Some (TList ["null"; "array"]))
     = Ok (pa.field "x" pa.string true).
Proof.
  repeat split; rewrite resolver_eq.
  - rewrite (selected_type_one _ "INTEGER") by reflexivity. reflexivity.
  - rewrite (selected_type_one _ "STRING") by reflexivity. reflexivity.
  - rewrite (selected_type_none _) by reflexivity. reflexivity.
  - rewrite (selected_type_one _ "ARRAY") by reflexivity. reflexivity.
Qed.

Lemma resolver_examples_witness :
  @_field_type_to_pyarrow_field elements_order "x" (Some (TList ["null"; "integer"]))
  = Ok (pa.field "x" pa.int64 true).
Proof. exact (proj1 (@resolver_examples elements_order)). Defined.

(** C3, as the code has it.  When the token the resolver selects is not a
    key of the lookup table, the resolver raises [NotImplementedError], and
    the message holds the field name and the declared types after
    normalization to a list (a single token is shown as a one-element
    list); nothing is returned in place of the error.  So
    [resolve("x", ["timestamp"])] raises with the text
    [Data types "['timestamp']" for field x is not yet supported.] *)
Theorem unsupported_type_raises `{PySetOrder} (field_name : string) (input_types : option type_decl) :
  ~ In (selected_type input_types) (dict_keys FIELD_TYPE_TO_PYARROW) ->
  _field_type_to_pyarrow_field field_name input_types
  = Raise (NotImplementedError
             ("Data types " +:+ PyStr.chr PyStr.dquote +:+
              py_repr (VList (map VStr (normalize_types input_types))) +:+
              PyStr.chr PyStr.dquote +:+ " for field " +:+ field_name +:+
              " is not yet supported."))
  /\ _field_type_to_pyarrow_field "x" (Some (TList ["timestamp"]))
     = Raise (NotImplementedError
                ("Data types " +:+ PyStr.chr PyStr.dquote +:+ "['timestamp']" +:+
                 PyStr.chr PyStr.dquote +:+ " for field x is not yet supported.")).
Proof.
  intros Hsel. split; rewrite resolver_eq.
  - apply dict_get_None in Hsel. now rewrite Hsel.
  - rewrite (selected_type_one _ "TIMESTAMP") by reflexivity. reflexivity.
Qed.

Lemma unsupported_type_raises_witness :
  @_field_type_to_pyarrow_field elements_order "created" (Some (TList ["null"; "date"]))
  = Raise (NotImplementedError
             ("Data types " +:+ PyStr.chr PyStr.dquote +:+ "['null', 'date']" +:+
              PyStr.chr PyStr.dquote +:+ " for field created is not yet supported.")).
Proof.
  refine (proj1 (@unsupported_type_raises elements_order "created"
                   (Some (TList ["null"; "date"])) _)).
  vm_compute. intuition discriminate.
Defined.

(** C3 as the spec words it fails: for the single token ["timestamp"] the
    message is the one for the list [["timestamp"]], not one that shows the
    value the caller supplied. *)
Lemma unsupported_message_not_as_supplied :
  @_field_type_to_pyarrow_field elements_order "x" (Some (TStr "timestamp"))
  = @_field_type_to_pyarrow_field elements_order "x" (Some (TList ["timestamp"]))
  /\ @_field_type_to_pyarrow_field elements_order "x" (Some (TStr "timestamp"))
     <> Raise (NotImplementedError (message_as_supplied (Some (TStr "timestamp")) "x")).
Proof.
  split; vm_compute; [reflexivity | discriminate].
Qed.

(** C7.  Building a schema stops at the first requested field that cannot
    be resolved: a name absent from the type mapping raises [KeyError] for
    that name, a type the resolver rejects raises the resolver's exception
    unchanged; and whenever some requested field fails in one of these two
    ways the builder raises and returns no schema. *)
Theorem schema_build_aborts `{PySetOrder} (types : option flat_schema)
    (fields_ordered : list string) :
  (forall pre field_name post cols,
      fields_ordered = pre ++ field_name :: post ->
      flatten_schema_to_pyarrow_schema types pre = Ok cols ->
      (dict_get (default [] types) field_name = None ->
       flatten_schema_to_pyarrow_schema types fields_ordered = Raise (KeyError field_name))
      /\ (forall t e,
             dict_get (default [] types) field_name = Some t ->
             _field_type_to_pyarrow_field field_name t = Raise e ->
             flatten_schema_to_pyarrow_schema types fields_ordered = Raise e))
  /\ (forall field_name,
         In field_name fields_ordered ->
         dict_get (default [] types) field_name = None
         \/ (exists t e, dict_get (default [] types) field_name = Some t
                         /\ _field_type_to_pyarrow_field field_name t = Raise e) ->
         exists e, flatten_schema_to_pyarrow_schema types fields_ordered = Raise e
                   /\ forall cols, flatten_schema_to_pyarrow_schema types fields_ordered <> Ok cols).
Proof.
  split.
  - intros pre field_name post cols -> Hpre. rewrite build_eq in Hpre.
    pose proof (resolve_fields_ok _ _ _ Hpre) as Hok.
    split; [intros Hget | intros t e Hget Hres]; rewrite build_eq;
      apply resolve_fields_first_error; try exact Hok;
      unfold field_error; rewrite Hget; [reflexivity | now rewrite Hres].
  - intros field_name Hin Hfail. rewrite build_eq.
    destruct (resolve_fields_some_error (default [] types) fields_ordered field_name Hin)
      as (e & g & _ & _ & Hres).
    + unfold field_error. destruct Hfail as [Hget | (t & e & Hget & Hres)]; rewrite Hget;
        [discriminate | rewrite Hres; discriminate].
    + exists e. split; [exact Hres|]. intros cols. rewrite Hres. discriminate.
Qed.

Lemma schema_build_aborts_witness :
  @flatten_schema_to_pyarrow_schema elements_order
    (Some [("a", Some (TList ["integer"])); ("b", Some (TList ["null"; "date"]))])
    ["a"; "zz"; "b"]
  = Raise (KeyError "zz")
  /\ @flatten_schema_to_pyarrow_schema elements_order
       (Some [("a", Some (TList ["integer"])); ("b", Some (TList ["null"; "date"]))])
       ["a"; "b"; "zz"]
     = Raise (NotImplementedError (unsupported_message ["null"; "date"] "b")).
Proof.
  split.
  - refine (proj1 (proj1 (@schema_build_aborts elements_order
                            (Some [("a", Some (TList ["integer"]));
                                   ("b", Some (TList ["null"; "date"]))])
                            ["a"; "zz"; "b"])
                     ["a"] "zz" ["b"] [pa.field "a" pa.int64 false] eq_refl _) _);
      vm_compute; reflexivity.
  - refine (proj2 (proj1 (@schema_build_aborts elements_order
                            (Some [("a", Some (TList ["integer"]));
                                   ("b", Some (TList ["null"; "date"]))])
                            ["a"; "b"; "zz"])
                     ["a"] "b" ["zz"] [pa.field "a" pa.int64 false] eq_refl _)
              (Some (TList ["null"; "date"]))
              (NotImplementedError (unsupported_message ["null"; "date"] "b")) _ _);
      vm_compute; reflexivity.
Defined.

(** ** Claims about [flatten_schema] *)

(** C4 as the spec words it fails: a type list holding ["OBJECT"] includes
    the token ["object"] once case is ignored, yet [flatten_schema] does not
    descend into the declaration; the node itself is a key of the result and
    its descendant [a__b] is not. *)
Lemma flatten_schema_object_test_is_case_sensitive :
  includes_ignoring_case "object" (Some (TList ["null"; "OBJECT"])) = true
  /\ flatten_schema
       (Some [("a", Decl (Some (TList ["null"; "OBJECT"]))
                         (Some [("b", Decl (Some (TList ["null"; "string"])) None)]))])
       "" "__"
     = ([], [("a", Some (TList ["null"; "OBJECT"]))]).
Proof. split; reflexivity. Qed.

(** C4, as the code has it.  The test for an object is the exact,
    case-sensitive token ["object"] of a type list.  For every schema [T]:
    every entry of [flatten_schema(T)] is the flattened key and the raw type
    of a declaration the walk reaches and does not take for an object; every
    such declaration is a key of the result, with its own type when no
    differently typed leaf shares its flattened key; a declaration taken for
    an object is not a key of the result unless a leaf shares its flattened
    key; and wherever such a declaration stands in [T], the result is that
    of the items before it, updated with what its [properties] yield under
    the extended key, updated with that of the items after it. *)
Theorem flatten_schema_only_leaves (T : schema) (parent_key sep : string) :
  (forall tokens, type_contains "object" (Some (TList tokens)) = true <-> In "object" tokens)
  /\ (forall new_key t,
         In (new_key, t) (snd (flatten_schema (Some T) parent_key sep)) ->
         exists key value,
           field_at sep T parent_key new_key key value /\
           type_contains "object" (decl_type value) = false /\
           t = decl_type value)
  /\ (forall new_key key value,
         field_at sep T parent_key new_key key value ->
         type_contains "object" (decl_type value) = false ->
         In new_key (dict_keys (snd (flatten_schema (Some T) parent_key sep)))
         /\ ((forall key' value',
                 field_at sep T parent_key new_key key' value' ->
                 type_contains "object" (decl_type value') = false ->
                 decl_type value' = decl_type value) ->
             dict_get (snd (flatten_schema (Some T) parent_key sep)) new_key
             = Some (decl_type value)))
  /\ (forall new_key key value,
         field_at sep T parent_key new_key key value ->
         type_contains "object" (decl_type value) = true ->
         (forall key' value',
             field_at sep T parent_key new_key key' value' ->
             type_contains "object" (decl_type value') = true) ->
         ~ In new_key (dict_keys (snd (flatten_schema (Some T) parent_key sep))))
  /\ (forall pre key value rest,
         T = pre ++ (key, value) :: rest ->
         type_contains "object" (decl_type value) = true ->
         flatten_schema (Some T) parent_key sep
         = (fst (flatten_schema (Some pre) parent_key sep)
              ++ fst (flatten_schema (decl_properties value)
                        (join_key parent_key sep key) sep)
              ++ fst (flatten_schema (Some rest) parent_key sep),
            dict_update
              (dict_update (snd (flatten_schema (Some pre) parent_key sep))
                 (snd (flatten_schema (decl_properties value)
                         (join_key parent_key sep key) sep)))
              (snd (flatten_schema (Some rest) parent_key sep)))).
Proof.
  split; [apply type_contains_list|].
  split; [intros new_key t; apply flatten_schema_sound|].
  split; [|split].
  - intros new_key key value Hat Hleaf.
    assert (Hkey : In new_key (dict_keys (snd (flatten_schema (Some T) parent_key sep))))
      by now apply flatten_schema_complete with key value.
    split; [exact Hkey|]. intros Huniq.
    apply dict_get_unique; [exact Hkey|].
    intros t Hin. apply flatten_schema_sound in Hin as (key' & value' & Hat' & Hleaf' & ->).
    now apply Huniq with key'.
  - intros new_key key value Hat Hobj Hall Hin.
    apply in_map_iff in Hin as [[k t] [Hk Hin]]. cbn [fst] in Hk. subst k.
    apply flatten_schema_sound in Hin as (key' & value' & Hat' & Hleaf' & _).
    rewrite (Hall key' value' Hat') in Hleaf'. discriminate.
  - intros pre key [t properties] rest -> Hobj. cbn [decl_type decl_properties] in *.
    rewrite !flatten_schema_eq, !flat_map_app. cbn [flat_map fst snd].
    destruct (schema_entry_object parent_key sep key t properties Hobj) as [-> ->].
    f_equal.
    rewrite app_assoc, dict_of_items_app, dict_of_items_app.
    rewrite (dict_of_items_NoDup
               (snd (flatten_schema properties (join_key parent_key sep key) sep)))
      by apply flatten_schema_keys_NoDup.
    reflexivity.
Qed.

Lemma flatten_schema_only_leaves_witness :
  flatten_schema
    (Some [("id", Decl (Some (TList ["null"; "integer"])) None);
           ("meta", Decl (Some (TList ["null"; "object"]))
                         (Some [("k", Decl (Some (TList ["null"; "string"])) None)]));
           ("at", Decl (Some (TStr "string")) None)])
    "" "__"
  = ([], [("id", Some (TList ["null"; "integer"]));
          ("meta__k", Some (TList ["null"; "string"]));
          ("at", Some (TStr "string"))]).
Proof.
  refine (eq_trans
            (proj2 (proj2 (proj2 (proj2
               (flatten_schema_only_leaves
                  [("id", Decl (Some (TList ["null"; "integer"])) None);
                   ("meta", Decl (Some (TList ["null"; "object"]))
                              (Some [("k", Decl (Some (TList ["null"; "string"])) None)]));
                   ("at", Decl (Some (TStr "string")) None)]
                  "" "__"))))
               [("id", Decl (Some (TList ["null"; "integer"])) None)]
               "meta"
               (Decl (Some (TList ["null"; "object"]))
                     (Some [("k", Decl (Some (TList ["null"; "string"])) None)]))
               [("at", Decl (Some (TStr "string")) None)]
               eq_refl eq_refl)
            eq_refl).
Defined.

(** C9.  A declaration that is taken for an object and has no
    ["properties"], at any depth the walk reaches, adds no entry and no
    diagnostic: the result is that of the schema without the declaration.
    The recursive call on the absent [properties] returns the empty
    mapping. *)
Theorem bare_object_contributes_nothing (T T' : schema) (parent_key sep : string) :
  drops_bare_object T T' ->
  flatten_schema (Some T) parent_key sep = flatten_schema (Some T') parent_key sep
  /\ flatten_schema None parent_key sep = ([], []).
Proof.
  intros Hdrop. split; [|reflexivity].
  now apply flatten_schema_ignores_bare_object.
Qed.

Lemma bare_object_contributes_nothing_witness :
  flatten_schema
    (Some [("id", Decl (Some (TList ["null"; "integer"])) None);
           ("meta", Decl (Some (TList ["null"; "object"])) None)]) "" "__"
  = ([], [("id", Some (TList ["null"; "integer"]))]).
Proof.
  refine (eq_trans (proj1 (bare_object_contributes_nothing
                             [("id", Decl (Some (TList ["null"; "integer"])) None);
                              ("meta", Decl (Some (TList ["null"; "object"])) None)]
                             [("id", Decl (Some (TList ["null"; "integer"])) None)]
                             "" "__" _)) eq_refl).
  exact (drop_bare_here [("id", Decl (Some (TList ["null"; "integer"])) None)]
           "meta" (Some (TList ["null"; "object"])) [] eq_refl).
Defined.



(** ** The end-to-end scenario *)

(** C1.  The schema
    [{"id": {"type": ["null","integer"]},
      "meta": {"type": ["null","object"],
               "properties": {"k": {"type": ["null","string"]}}}}]
    flattened, then built in the order [["id", "meta__k"]], gives the
    columns (id, int64, nullable) and (meta__k, string, nullable); the
    record [{"id": 5, "meta": {"k": "v"}}] flattens to
    [{"id": 5, "meta__k": "v"}], whose keys are the column names. *)
Theorem end_to_end_scenario `{PySetOrder} :
  let T : schema :=
    [("id", Decl (Some (TList ["null"; "integer"])) None);
     ("meta", Decl (Some (TList ["null"; "object"]))
                   (Some [("k", Decl (Some (TList ["null"; "string"])) None)]))] in
  let R : record := [("id", VInt 5); ("meta", VDict [("k", VStr "v")])] in
  let columns := [pa.field "id" pa.int64 true; pa.field "meta__k" pa.string true] in
  flatten_schema (Some T) "" "__"
  = ([], [("id", Some (TList ["null"; "integer"])); ("meta__k", Some (TList ["null"; "string"]))])
  /\ flatten_schema_to_pyarrow_schema (Some (snd (flatten_schema (Some T) "" "__")))
       ["id"; "meta__k"]
     = Ok columns
  /\ flatten (Some R) "" "__" = [("id", VInt 5); ("meta__k", VStr "v")]
  /\ dict_keys (flatten (Some R) "" "__") = map pa.name columns.
Proof.
  intros T R columns. repeat split.
  rewrite build_eq.
  change (snd (flatten_schema (Some T) "" "__"))
    with [("id", Some (TList ["null"; "integer"])); ("meta__k", Some (TList ["null"; "string"]))].
  cbn [from_option id]. rewrite !resolve_fields_cons.
  change (dict_get _ "id") with (Some (Some (TList ["null"; "integer"]))).
  change (dict_get _ "meta__k") with (Some (Some (TList ["null"; "string"]))).
  cbv beta iota. rewrite !resolver_eq.
  rewrite (selected_type_one (Some (TList ["null"; "integer"])) "INTEGER") by reflexivity.
  rewrite (selected_type_one (Some (TList ["null"; "string"])) "STRING") by reflexivity.
  reflexivity.
Qed.

Lemma end_to_end_scenario_witness :
  @flatten_schema_to_pyarrow_schema elements_order
    (Some (snd (flatten_schema
                  (Some [("id", Decl (Some (TList ["null"; "integer"])) None);
                         ("meta", Decl (Some (TList ["null"; "object"]))
                                       (Some [("k", Decl (Some (TList ["null"; "string"]))
                                                         None)]))])
                  "" "__")))
    ["id"; "meta__k"]
  = Ok [pa.field "id" pa.int64 true; pa.field "meta__k" pa.string true].
Proof. exact (proj1 (proj2 (@end_to_end_scenario elements_order))). Defined.

(** * Further properties of the code *)

Lemma string_app_assoc (a b c : string) : (a +:+ b) +:+ c = a +:+ b +:+ c.
Proof.
  induction a as [|x a IH]; [reflexivity|].
  change (String x ((a +:+ b) +:+ c) = String x (a +:+ b +:+ c)). now rewrite IH.
Qed.

(** ** More about [flatten] *)

Lemma leaf_at_not_mapping sep d parent_key new_key v :
  leaf_at sep d parent_key new_key v -> is_mapping v = false.
Proof. induction 1; assumption. Qed.

Lemma leaf_value_scalar v :
  is_mapping v = false ->
  is_mapping (leaf_value v) = false /\ is_list (leaf_value v) = false.
Proof. destruct v; simpl; intros H; try discriminate; now split. Qed.

Lemma flatten_keys_NoDup dictionary parent_key sep :
  List.NoDup (dict_keys (flatten dictionary parent_key sep)).
Proof.
  destruct dictionary as [d|]; [|constructor].
  rewrite flatten_eq. apply dict_of_items_keys_NoDup.
Qed.

Lemma flatten_values_scalar dictionary parent_key sep k x :
  In (k, x) (flatten dictionary parent_key sep) ->
  is_mapping x = false /\ is_list x = false.
Proof.
  destruct dictionary as [d|]; [|intros []].
  intros Hin. apply flatten_sound in Hin as [v [Hleaf ->]].
  apply leaf_value_scalar. now apply leaf_at_not_mapping in Hleaf.
Qed.

(** X1.  The values [flatten] returns are neither mappings nor lists, and
    flattening its result again, under any separator, gives the result
    back. *)
Theorem flatten_idempotent (dictionary : option record) (parent_key sep sep' : string) :
  (forall k x, In (k, x) (flatten dictionary parent_key sep) ->
               is_mapping x = false /\ is_list x = false)
  /\ flatten (Some (flatten dictionary parent_key sep)) "" sep'
     = flatten dictionary parent_key sep.
Proof.
  split; [intros k x; apply flatten_values_scalar|].
  set (F := flatten dictionary parent_key sep).
  assert (Hflat : is_flat F = true).
  { apply forallb_forall. intros [k x] Hin. cbn [snd].
    apply flatten_values_scalar in Hin as [-> _]. reflexivity. }
  assert (Hnl : has_no_list F = true).
  { apply forallb_forall. intros [k x] Hin. cbn [snd].
    apply flatten_values_scalar in Hin as [_ ->]. reflexivity. }
  rewrite flatten_eq, flat_map_flatten_entry_flat, map_leaf_value_no_list by assumption.
  apply dict_of_items_NoDup. apply flatten_keys_NoDup.
Qed.

(** X2.  Flattening a record whose items are those of [R1] followed by those
    of [R2] is flattening [R1] and updating the result with the flattening
    of [R2]: where two paths give one flattened key, the later one in
    iteration order supplies the value and the earlier one the position. *)
Theorem flatten_app (R1 R2 : record) (parent_key sep : string) :
  flatten (Some (R1 ++ R2)) parent_key sep
  = dict_update (flatten (Some R1) parent_key sep) (flatten (Some R2) parent_key sep)
  /\ forall k,
       dict_get (flatten (Some (R1 ++ R2)) parent_key sep) k
       = match dict_get (flatten (Some R2) parent_key sep) k with
         | Some v => Some v
         | None => dict_get (flatten (Some R1) parent_key sep) k
         end.
Proof.
  assert (E : flatten (Some (R1 ++ R2)) parent_key sep
              = dict_update (flatten (Some R1) parent_key sep)
                  (flatten (Some R2) parent_key sep)).
  { rewrite !flatten_eq, flat_map_app. apply dict_of_items_app. }
  split; [exact E|].
  intros k. rewrite E. apply dict_get_update_NoDup. apply flatten_keys_NoDup.
Qed.

(** X3.  Under a parent key that is not empty, every key of the result
    starts with the parent key and the separator.  A key that is the empty
    string adds nothing to the path: at the top level the items of its
    mapping are flattened as if they stood in the record itself. *)
Theorem flatten_keys_prefixed (R : record) (parent_key sep : string) :
  (parent_key <> "" ->
   forall k, In k (dict_keys (flatten (Some R) parent_key sep)) ->
             exists rest, k = parent_key +:+ sep +:+ rest)
  /\ flatten (Some [("", VDict R)]) "" sep = flatten (Some R) "" sep.
Proof.
  split.
  - revert parent_key. induction R as [R IH] using record_nested_ind.
    intros parent_key Hp k Hin.
    rewrite flatten_eq in Hin. apply (proj1 (dict_of_items_keys _ _)) in Hin.
    apply (proj1 (in_keys_flat_map _ _ _)) in Hin as [[k0 v] [Hkv Hin]].
    assert (Hnk : join_key parent_key sep k0 = parent_key +:+ sep +:+ k0)
      by (destruct parent_key; [contradiction | reflexivity]).
    destruct (is_mapping v) eqn:Hmap.
    + destruct v; try discriminate. unfold flatten_entry in Hin. cbn [fst snd] in Hin.
      destruct (IH k0 d Hkv (join_key parent_key sep k0)) with (k := k) as [rest ->].
      * rewrite Hnk. destruct parent_key; [contradiction | discriminate].
      * exact Hin.
      * exists (k0 +:+ sep +:+ rest). rewrite Hnk.
        now rewrite <- !string_app_assoc.
    + rewrite flatten_entry_leaf in Hin by exact Hmap.
      destruct Hin as [<-|[]]. simpl. exists k0. exact Hnk.
  - rewrite (flatten_eq [("", VDict R)]). cbn [flat_map].
    unfold flatten_entry. cbn [fst snd join_key]. rewrite app_nil_r.
    apply dict_of_items_NoDup. apply flatten_keys_NoDup.
Qed.

Lemma flatten_keys_prefixed_witness :
  exists rest, "row__b__c" = "row" +:+ "__" +:+ rest.
Proof.
  refine (proj1 (flatten_keys_prefixed [("a", VInt 1); ("b", VDict [("c", VNone)])]
                   "row" "__") _ "row__b__c" _).
  - discriminate.
  - vm_compute. tauto.
Defined.

(** X4.  A record that follows a schema flattens to keys that are all keys
    of the flattened schema, under the same parent key and separator. *)
Theorem flatten_keys_in_schema (R : record) (T : schema) (parent_key sep : string) :
  conforms R T ->
  forall k, In k (dict_keys (flatten (Some R) parent_key sep)) ->
            In k (dict_keys (snd (flatten_schema (Some T) parent_key sep))).
Proof.
  intros Hconf. revert parent_key.
  induction Hconf as [T | k0 v R T value Hmap Hin Hleaf _ IHR
                     | k0 d' R T value properties Hin Hobj Hprops _ IHd _ IHR];
    intros parent_key k Hk.
  - destruct Hk.
  - rewrite flatten_eq in Hk. apply (proj1 (dict_of_items_keys _ _)) in Hk.
    cbn [flat_map] in Hk. rewrite map_app in Hk. apply in_app_or in Hk as [Hk|Hk].
    + rewrite flatten_entry_leaf in Hk by exact Hmap. destruct Hk as [<-|[]].
      apply flatten_schema_complete with k0 value; [now apply field_here | exact Hleaf].
    + apply IHR. rewrite flatten_eq. now apply dict_of_items_keys.
  - rewrite flatten_eq in Hk. apply (proj1 (dict_of_items_keys _ _)) in Hk.
    cbn [flat_map] in Hk. rewrite map_app in Hk. apply in_app_or in Hk as [Hk|Hk].
    + unfold flatten_entry in Hk. cbn [fst snd] in Hk. apply IHd in Hk.
      rewrite flatten_schema_eq. apply dict_of_items_keys. apply in_keys_flat_map.
      exists (k0, value). split; [exact Hin|].
      unfold schema_entry_items. cbn [fst snd]. now rewrite Hobj, Hprops.
    + apply IHR. rewrite flatten_eq. now apply dict_of_items_keys.
Qed.

Lemma flatten_keys_in_schema_witness :
  In "meta__k"
    (dict_keys (snd (flatten_schema
                       (Some [("id", Decl (Some (TList ["null"; "integer"])) None);
                              ("meta", Decl (Some (TList ["null"; "object"]))
                                         (Some [("k", Decl (Some (TList ["null"; "string"]))
                                                           None)]))])
                       "" "__"))).
Proof.
  refine (flatten_keys_in_schema
            [("id", VInt 5); ("meta", VDict [("k", VStr "v")])] _ "" "__" _ "meta__k" _).
  - apply conforms_leaf with (Decl (Some (TList ["null"; "integer"])) None);
      [reflexivity | now left | reflexivity |].
    apply conforms_nested
      with (Decl (Some (TList ["null"; "object"]))
                 (Some [("k", Decl (Some (TList ["null"; "string"])) None)]))
           [("k", Decl (Some (TList ["null"; "string"])) None)];
      [right; now left | reflexivity | reflexivity | | apply conforms_nil].
    apply conforms_leaf with (Decl (Some (TList ["null"; "string"])) None);
      [reflexivity | now left | reflexivity | apply conforms_nil].
  - vm_compute. tauto.
Defined.

(** ** More about [flatten_schema] *)

(** X5.  Flattening a schema whose items are those of [T1] followed by those
    of [T2] logs what [T1] logs and then what [T2] logs, and returns the
    mapping of [T1] updated with that of [T2]: of two declarations with one
    flattened key the later one supplies the type. *)
Theorem flatten_schema_app (T1 T2 : schema) (parent_key sep : string) :
  flatten_schema (Some (T1 ++ T2)) parent_key sep
  = (fst (flatten_schema (Some T1) parent_key sep)
       ++ fst (flatten_schema (Some T2) parent_key sep),
     dict_update (snd (flatten_schema (Some T1) parent_key sep))
                 (snd (flatten_schema (Some T2) parent_key sep)))
  /\ forall k,
       dict_get (snd (flatten_schema (Some (T1 ++ T2)) parent_key sep)) k
       = match dict_get (snd (flatten_schema (Some T2) parent_key sep)) k with
         | Some t => Some t
         | None => dict_get (snd (flatten_schema (Some T1) parent_key sep)) k
         end.
Proof.
  assert (E : flatten_schema (Some (T1 ++ T2)) parent_key sep
              = (fst (flatten_schema (Some T1) parent_key sep)
                   ++ fst (flatten_schema (Some T2) parent_key sep),
                 dict_update (snd (flatten_schema (Some T1) parent_key sep))
                             (snd (flatten_schema (Some T2) parent_key sep)))).
  { rewrite !flatten_schema_eq, !flat_map_app. cbn [fst snd].
    now rewrite dict_of_items_app. }
  split; [exact E|].
  intros k. rewrite E. cbn [snd]. apply dict_get_update_NoDup.
  apply flatten_schema_keys_NoDup.
Qed.

Lemma flatten_schema_warning_inv sep : forall d parent_key key value,
  In (LogWarning key value) (fst (flatten_schema (Some d) parent_key sep)) ->
  decl_type value = None /\ exists new_key, field_at sep d parent_key new_key key value.
Proof.
  induction d as [d IH] using schema_nested_ind. intros parent_key key value Hin.
  rewrite flatten_schema_eq in Hin. cbn [fst] in Hin.
  apply in_flat_map in Hin as [[key0 value0] [Hkv Hin]].
  unfold schema_entry_log in Hin. cbn [fst snd] in Hin.
  apply in_app_or in Hin as [Hin|Hin].
  - destruct (decl_type value0) eqn:Ht; [destruct Hin|].
    destruct Hin as [[= <- <-]|[]].
    split; [exact Ht|]. eexists. now apply field_here.
  - destruct (type_contains "object" (decl_type value0)) eqn:Hobj; [|destruct Hin].
    destruct (decl_properties value0) as [properties|] eqn:Hprops; [|destruct Hin].
    destruct (IH key0 value0 properties Hkv Hprops _ _ _ Hin) as [Hnone [new_key Hat]].
    split; [exact Hnone|]. exists new_key.
    now apply field_under with key0 value0 properties.
Qed.

(** X6.  The warnings [flatten_schema] logs are exactly those for the
    declarations without a ["type"] key that the walk reaches: a declaration
    that has a type, or that lies under a declaration not taken for an
    object, is never reported. *)
Theorem flatten_schema_warnings (T : schema) (parent_key sep key : string) (value : decl) :
  In (LogWarning key value) (fst (flatten_schema (Some T) parent_key sep))
  <-> decl_type value = None /\ exists new_key, field_at sep T parent_key new_key key value.
Proof.
  split.
  - apply flatten_schema_warning_inv.
  - intros [Hnone [new_key Hat]]. now apply flatten_schema_warns with new_key.
Qed.

(** ** More about the resolver *)

Section ResolverMore.
Context {order : PySetOrder}.

Lemma elem_of_types_uppercase (t : option type_decl) (x : string) :
  x ∈ (list_to_set (map PyStr.upper (normalize_types t)) : gset string)
  <-> exists tok, In tok (normalize_types t) /\ PyStr.upper tok = x.
Proof.
  rewrite elem_of_list_to_set, list_elem_of_In, in_map_iff.
  split; intros [tok [H1 H2]]; exists tok; tauto.
Qed.

Lemma set_iter_elem_of (inserted : list string) (X : gset string) (x : string) :
  In x (set_iter inserted X) <-> x ∈ X.
Proof. now rewrite <- list_elem_of_In, set_iter_perm, elem_of_elements. Qed.

Lemma set_iter_nil_inv (inserted : list string) (X : gset string) :
  set_iter inserted X = [] -> X = ∅.
Proof.
  intros H. apply leibniz_equiv, elements_empty_iff, Permutation_nil_r.
  now rewrite <- set_iter_perm, H.
Qed.

Lemma nullable_iff (t : option type_decl) :
  bool_decide ("NULL" ∈ (list_to_set (map PyStr.upper (normalize_types t)) : gset string)) = true
  <-> exists tok, In tok (normalize_types t) /\ PyStr.upper tok = "NULL".
Proof. now rewrite bool_decide_eq_true, elem_of_types_uppercase. Qed.

Lemma nullable_existsb (t : option type_decl) :
  bool_decide ("NULL" ∈ (list_to_set (map PyStr.upper (normalize_types t)) : gset string))
  = existsb (fun tok => String.eqb (PyStr.upper tok) "NULL") (normalize_types t).
Proof.
  apply eq_true_iff_eq. rewrite nullable_iff, existsb_exists.
  split; intros [tok [H1 H2]]; exists tok; (split; [exact H1|]);
    [now apply String.eqb_eq | now apply String.eqb_eq in H2].
Qed.

(** X7.  A field the resolver returns has the name it was asked for; it is
    nullable exactly when some declared token is ["null"] in some case; and
    its type is the table's entry for the upper-cased form of a declared
    token other than null, or [string] when no such token is declared. *)
Theorem resolver_ok_inv (field_name : string) (input_types : option type_decl)
    (f : pa.Field) :
  _field_type_to_pyarrow_field field_name input_types = Ok f ->
  pa.name f = field_name
  /\ (pa.nullable f = true
      <-> exists tok, In tok (normalize_types input_types) /\ PyStr.upper tok = "NULL")
  /\ ((exists tok, In tok (normalize_types input_types) /\ PyStr.upper tok <> "NULL"
                   /\ dict_get FIELD_TYPE_TO_PYARROW (PyStr.upper tok) = Some (pa.type f))
      \/ ((forall tok, In tok (normalize_types input_types) -> PyStr.upper tok = "NULL")
          /\ pa.type f = pa.string)).
Proof.
  rewrite resolver_eq. unfold selected_type.
  destruct (set_iter (map PyStr.upper (normalize_types input_types))
              ((list_to_set (map PyStr.upper (normalize_types input_types))
                : gset string) ∖ {["NULL"]})) as [|x rest] eqn:E.
  - intros [= <-]. cbn [pa.name pa.nullable pa.type].
    split; [reflexivity|]. split; [apply nullable_iff|]. right. split; [|reflexivity].
    intros tok Htok. apply set_iter_nil_inv in E.
    destruct (decide (PyStr.upper tok = "NULL")) as [|Hne]; [assumption|].
    exfalso. apply (not_elem_of_empty (C := gset string) (PyStr.upper tok)).
    rewrite <- E. apply elem_of_difference. split.
    + apply elem_of_types_uppercase. now exists tok.
    + now rewrite elem_of_singleton.
  - assert (Hx : x ∈ (list_to_set (map PyStr.upper (normalize_types input_types))
                      : gset string) ∖ {["NULL"]}).
    { apply (set_iter_elem_of (map PyStr.upper (normalize_types input_types))).
      rewrite E. now left. }
    apply elem_of_difference in Hx as [Hx Hnull].
    apply elem_of_types_uppercase in Hx as [tok [Htok <-]].
    rewrite elem_of_singleton in Hnull.
    destruct (dict_get FIELD_TYPE_TO_PYARROW (PyStr.upper tok)) as [ty|] eqn:Hty;
      [|discriminate].
    intros [= <-]. cbn [pa.name pa.nullable pa.type].
    split; [reflexivity|]. split; [apply nullable_iff|]. left. now exists tok.
Qed.

(** X9.  When the declared tokens other than null all upper-case to one
    token [X] of the table, the field gets the table's type for [X],
    whatever the order, repetition or case of the tokens and whatever the
    iteration order of sets; it is nullable exactly when a null token is
    declared. *)
Theorem resolver_single_type (field_name : string) (input_types : option type_decl)
    (X : string) (pyarrow_type : pa.DataType) :
  X <> "NULL" ->
  (exists tok, In tok (normalize_types input_types) /\ PyStr.upper tok = X) ->
  (forall tok, In tok (normalize_types input_types) ->
               PyStr.upper tok = "NULL" \/ PyStr.upper tok = X) ->
  dict_get FIELD_TYPE_TO_PYARROW X = Some pyarrow_type ->
  _field_type_to_pyarrow_field field_name input_types
  = Ok (pa.field field_name pyarrow_type
          (existsb (fun tok => String.eqb (PyStr.upper tok) "NULL")
             (normalize_types input_types))).
Proof.
  intros HX Hsome Hall Hty.
  rewrite resolver_eq, (selected_type_one input_types X), Hty, nullable_existsb;
    [reflexivity|].
  apply set_eq. intros x.
  rewrite elem_of_difference, elem_of_types_uppercase, !elem_of_singleton. split.
  - intros [[tok [Htok <-]] Hne]. destruct (Hall tok Htok); [contradiction | assumption].
  - intros ->. split; [exact Hsome | exact HX].
Qed.

(** X10.  A declaration with no token other than null (absent, empty, or
    only nulls) gives a [string] column, nullable exactly when it holds a
    token. *)
Theorem resolver_untyped_is_string (field_name : string) (input_types : option type_decl) :
  (forall tok, In tok (normalize_types input_types) -> PyStr.upper tok = "NULL") ->
  _field_type_to_pyarrow_field field_name input_types
  = Ok (pa.field field_name pa.string
          (match normalize_types input_types with [] => false | _ :: _ => true end)).
Proof.
  intros Hall.
  rewrite resolver_eq, (selected_type_none input_types), nullable_existsb.
  - cbn [dict_get FIELD_TYPE_TO_PYARROW]. do 2 f_equal.
    destruct (normalize_types input_types) as [|tok l]; [reflexivity|].
    cbn [existsb]. rewrite (Hall tok) by now left. reflexivity.
  - apply set_eq. intros x.
    rewrite elem_of_difference, elem_of_types_uppercase, elem_of_singleton.
    split; [|intros Hx; now apply not_elem_of_empty in Hx].
    intros [[tok [Htok <-]] Hne]. now apply Hall in Htok.
Qed.
End ResolverMore.

Lemma resolver_ok_inv_witness :
  pa.name (pa.field "x" pa.int64 true) = "x"
  /\ (pa.nullable (pa.field "x" pa.int64 true) = true
      <-> exists tok, In tok ["null"; "integer"] /\ PyStr.upper tok = "NULL").
Proof.
  pose proof (@resolver_ok_inv elements_order "x" (Some (TList ["null"; "integer"]))
                (pa.field "x" pa.int64 true)) as H.
  destruct H as (Hname & Hnull & _).
  - rewrite resolver_eq, (selected_type_one _ "INTEGER") by reflexivity. reflexivity.
  - split; [exact Hname | exact Hnull].
Defined.

Lemma resolver_single_type_witness :
  @_field_type_to_pyarrow_field elements_order "amount"
    (Some (TList ["Number"; "null"; "NUMBER"; "number"]))
  = Ok (pa.field "amount" pa.float64 true).
Proof.
  refine (@resolver_single_type elements_order "amount"
            (Some (TList ["Number"; "null"; "NUMBER"; "number"])) "NUMBER" pa.float64
            _ _ _ _).
  - discriminate.
  - exists "number". split; [simpl; tauto | reflexivity].
  - intros tok [<-|[<-|[<-|[<-|[]]]]]; vm_compute; tauto.
  - reflexivity.
Defined.

Lemma resolver_untyped_is_string_witness :
  @_field_type_to_pyarrow_field elements_order "note" (Some (TList ["null"; "Null"]))
  = Ok (pa.field "note" pa.string true).
Proof.
  refine (@resolver_untyped_is_string elements_order "note" (Some (TList ["null"; "Null"])) _).
  intros tok [<-|[<-|[]]]; reflexivity.
Defined.







(** ** More about the builder *)

Section BuilderMore.
Context {order : PySetOrder}.

Lemma resolver_ok_name field_name input_types f :
  _field_type_to_pyarrow_field field_name input_types = Ok f -> pa.name f = field_name.
Proof.
  rewrite resolver_eq.
  destruct (dict_get FIELD_TYPE_TO_PYARROW _); [|discriminate].
  now intros [= <-].
Qed.

Lemma resolve_fields_ok_iff (d : flat_schema) : forall fields_ordered cols,
  resolve_fields d fields_ordered = Ok cols
  <-> Forall2 (fun field_name f =>
                 exists t, dict_get d field_name = Some t
                           /\ _field_type_to_pyarrow_field field_name t = Ok f)
        fields_ordered cols.
Proof.
  induction fields_ordered as [|field_name rest IH]; intros cols.
  - cbn [resolve_fields]. split.
    + intros [= <-]. constructor.
    + intros H. inversion H. reflexivity.
  - rewrite resolve_fields_cons. split.
    + destruct (dict_get d field_name) as [t|] eqn:Hget; [|discriminate].
      destruct (_field_type_to_pyarrow_field field_name t) as [f|] eqn:Hf; [|discriminate].
      destruct (resolve_fields d rest) as [fs|] eqn:Hfs; [|discriminate].
      intros [= <-]. constructor; [exists t; now split | now apply IH].
    + intros H. inversion H as [|? f ? fs [t [Hget Hf]] Hrest]; subst.
      rewrite Hget, Hf. apply IH in Hrest. now rewrite Hrest.
Qed.

Lemma Forall2_names (d : flat_schema) (fields_ordered : list string) (cols : list pa.Field) :
  Forall2 (fun field_name f =>
             exists t, dict_get d field_name = Some t
                       /\ _field_type_to_pyarrow_field field_name t = Ok f)
    fields_ordered cols ->
  map pa.name cols = fields_ordered.
Proof.
  induction 1 as [|field_name f rest fs [t [_ Hf]] _ IH]; [reflexivity|].
  cbn [map]. now rewrite (resolver_ok_name _ _ _ Hf), IH.
Qed.

(** X12.  The builder returns a schema exactly when every requested name is
    a key of the mapping and its type is resolved; the schema then has one
    column for each requested name (a name requested twice gives two
    columns), each the resolver's field for that name, in the order
    requested.  Keys of the mapping that are not requested play no part. *)
Theorem schema_build_ok_iff (types : option flat_schema) (fields_ordered : list string)
    (cols : pa.Schema) :
  (flatten_schema_to_pyarrow_schema types fields_ordered = Ok cols
   <-> Forall2 (fun field_name f =>
                  exists t, dict_get (default [] types) field_name = Some t
                            /\ _field_type_to_pyarrow_field field_name t = Ok f)
         fields_ordered cols)
  /\ (flatten_schema_to_pyarrow_schema types fields_ordered = Ok cols ->
      map pa.name cols = fields_ordered).
Proof.
  rewrite build_eq. split; [apply resolve_fields_ok_iff|].
  intros H. apply resolve_fields_ok_iff in H. now apply Forall2_names in H.
Qed.

Lemma NoDup_keys_functional {V : Type} (d : dict V) k v v' :
  List.NoDup (dict_keys d) -> In (k, v) d -> In (k, v') d -> v = v'.
Proof.
  induction d as [|[k0 v0] d IH]; intros Hnd Hin Hin'; [destruct Hin|].
  inversion Hnd as [|? ? Hk0 Hnd']; subst.
  destruct Hin as [E|Hin], Hin' as [E'|Hin'].
  - congruence.
  - injection E as -> ->. exfalso. apply Hk0. apply in_map_iff. now exists (k, v').
  - injection E' as -> ->. exfalso. apply Hk0. apply in_map_iff. now exists (k, v).
  - now apply IH.
Qed.

Lemma resolve_all_keys (d : flat_schema) :
  List.NoDup (dict_keys d) ->
  (forall k t, In (k, t) d -> exists f, _field_type_to_pyarrow_field k t = Ok f) ->
  forall part, (forall kv, In kv part -> In kv d) ->
  exists cols, resolve_fields d (dict_keys part) = Ok cols
               /\ map pa.name cols = dict_keys part.
Proof.
  intros Hnd Hres. induction part as [|[k t] part IH]; intros Hsub.
  - exists []. now split.
  - destruct IH as [cols [Hcols Hnames]]; [intros kv Hkv; apply Hsub; now right|].
    assert (Hin : In (k, t) d) by (apply Hsub; now left).
    destruct (Hres k t Hin) as [f Hf].
    exists (f :: cols). cbn [dict_keys map fst]. rewrite resolve_fields_cons.
    rewrite (dict_get_unique d k t).
    + rewrite Hf. fold (dict_keys part). rewrite Hcols. split; [reflexivity|].
      cbn [map]. now rewrite (resolver_ok_name _ _ _ Hf), Hnames.
    + apply in_map_iff. now exists (k, t).
    + intros t' Hin'. now apply (NoDup_keys_functional d k t' t Hnd).
Qed.

(** X13.  When the resolver accepts the type of every entry that
    [flatten_schema] returns, building a schema from that mapping with its
    own keys as the order succeeds, with one column per flattened key, named
    after it, in the order of the mapping. *)
Theorem build_flattened_schema (dictionary : option schema) (parent_key sep : string) :
  (forall k t, In (k, t) (snd (flatten_schema dictionary parent_key sep)) ->
               exists f, _field_type_to_pyarrow_field k t = Ok f) ->
  exists cols,
    flatten_schema_to_pyarrow_schema
      (Some (snd (flatten_schema dictionary parent_key sep)))
      (dict_keys (snd (flatten_schema dictionary parent_key sep)))
    = Ok cols
    /\ map pa.name cols = dict_keys (snd (flatten_schema dictionary parent_key sep)).
Proof.
  intros Hres. rewrite build_eq. cbn [from_option id].
  apply (resolve_all_keys _ (flatten_schema_keys_NoDup dictionary parent_key sep) Hres).
  intros kv Hkv. exact Hkv.
Qed.
End BuilderMore.

Lemma schema_build_ok_iff_witness :
  @flatten_schema_to_pyarrow_schema elements_order
    (Some [("a", Some (TList ["integer"])); ("b", None); ("c", Some (TStr "date"))])
    ["b"; "a"; "b"]
  = Ok [pa.field "b" pa.string false; pa.field "a" pa.int64 false;
        pa.field "b" pa.string false].
Proof.
  refine (proj2 (proj1 (@schema_build_ok_iff elements_order
                          (Some [("a", Some (TList ["integer"])); ("b", None);
                                 ("c", Some (TStr "date"))])
                          ["b"; "a"; "b"]
                          [pa.field "b" pa.string false; pa.field "a" pa.int64 false;
                           pa.field "b" pa.string false])) _).
  repeat constructor.
  - exists None. split; reflexivity.
  - exists (Some (TList ["integer"])). split; vm_compute; reflexivity.
  - exists None. split; reflexivity.
Defined.

Lemma build_flattened_schema_witness :
  exists cols,
    @flatten_schema_to_pyarrow_schema elements_order
      (Some [("id", Some (TList ["null"; "integer"]));
             ("meta__k", Some (TList ["null"; "string"]))])
      ["id"; "meta__k"]
    = Ok cols
    /\ map pa.name cols = ["id"; "meta__k"].
Proof.
  refine (@build_flattened_schema elements_order
            (Some [("id", Decl (Some (TList ["null"; "integer"])) None);
                   ("meta", Decl (Some (TList ["null"; "object"]))
                              (Some [("k", Decl (Some (TList ["null"; "string"])) None)]))])
            "" "__" _).
  intros k t [[= <- <-]|[[= <- <-]|[]]]; eexists; vm_compute; reflexivity.
Defined.

(** ** [flatten] and [flatten_schema] as dictionaries of leaves *)

Lemma dict_of_items_flat_map {A V : Type} (f g : A -> list (string * V)) (l : list A) :
  (forall a, In a l -> dict_of_items (f a) = dict_of_items (g a)) ->
  dict_of_items (flat_map f l) = dict_of_items (flat_map g l).
Proof.
  induction l as [|a l IH]; intros Hfg; [reflexivity|].
  cbn [flat_map]. rewrite !dict_of_items_app, Hfg by now left.
  rewrite IH; [reflexivity|]. intros a' Ha'. apply Hfg. now right.
Qed.

Lemma record_leaves_eq R parent_key sep :
  record_leaves R parent_key sep
  = flat_map (fun kv =>
      match snd kv with
      | VDict d' => record_leaves d' (join_key parent_key sep (fst kv)) sep
      | v => [(join_key parent_key sep (fst kv), leaf_value v)]
      end) R.
Proof.
  unfold record_leaves at 1, leaves_body.
  apply flat_map_ext_In. intros [k v] _. destruct v; reflexivity.
Qed.

Lemma flatten_is_dict_of_leaves sep : forall R parent_key,
  flatten (Some R) parent_key sep = dict_of_items (record_leaves R parent_key sep).
Proof.
  induction R as [R IH] using record_nested_ind. intros parent_key.
  rewrite flatten_eq, record_leaves_eq. apply dict_of_items_flat_map.
  intros [k v] Hin. unfold flatten_entry. cbn [fst snd].
  destruct v; try reflexivity.
  rewrite (IH k d Hin). apply dict_of_items_idem.
Qed.

(** X14.  [flatten] returns the dictionary built from the leaves of the
    record in iteration order; when no two leaves share a flattened key, the
    result holds exactly one entry per leaf, in that order. *)
Theorem flatten_one_entry_per_leaf (R : record) (parent_key sep : string) :
  flatten (Some R) parent_key sep = dict_of_items (record_leaves R parent_key sep)
  /\ (List.NoDup (map fst (record_leaves R parent_key sep)) ->
      flatten (Some R) parent_key sep = record_leaves R parent_key sep).
Proof.
  split; [apply flatten_is_dict_of_leaves|].
  intros Hnd. rewrite flatten_is_dict_of_leaves. now apply dict_of_items_NoDup.
Qed.

Lemma flatten_one_entry_per_leaf_witness :
  flatten (Some [("a", VDict [("b", VInt 1); ("c", VList [])]); ("d", VNone)]) "" "."
  = [("a.b", VInt 1); ("a.c", VStr "[]"); ("d", VNone)].
Proof.
  refine (proj2 (flatten_one_entry_per_leaf
                   [("a", VDict [("b", VInt 1); ("c", VList [])]); ("d", VNone)] "" ".") _).
  vm_compute. repeat constructor; simpl; intuition discriminate.
Defined.

Lemma schema_leaves_eq T parent_key sep :
  schema_leaves T parent_key sep
  = flat_map (fun kv =>
      if type_contains "object" (decl_type (snd kv))
      then match decl_properties (snd kv) with
           | Some d' => schema_leaves d' (join_key parent_key sep (fst kv)) sep
           | None => []
           end
      else [(join_key parent_key sep (fst kv), decl_type (snd kv))]) T.
Proof.
  unfold schema_leaves at 1, schema_leaves_body.
  apply flat_map_ext_In. intros [k [t [d'|]]] _; reflexivity.
Qed.

Lemma flatten_schema_is_dict_of_leaves sep : forall T parent_key,
  snd (flatten_schema (Some T) parent_key sep)
  = dict_of_items (schema_leaves T parent_key sep).
Proof.
  induction T as [T IH] using schema_nested_ind. intros parent_key.
  rewrite flatten_schema_eq, schema_leaves_eq. cbn [snd].
  apply dict_of_items_flat_map.
  intros [k value] Hin. unfold schema_entry_items. cbn [fst snd].
  destruct (type_contains "object" (decl_type value)); [|reflexivity].
  destruct (decl_properties value) as [d'|] eqn:Hprops; [|reflexivity].
  rewrite (IH k value d' Hin Hprops). apply dict_of_items_idem.
Qed.

(** X15.  [flatten_schema] returns the dictionary built from the leaves of
    the schema in iteration order; when no two leaves share a flattened key,
    the result holds exactly one entry per leaf, in that order, so the
    columns come out in the order the schema declares them. *)
Theorem flatten_schema_one_entry_per_leaf (T : schema) (parent_key sep : string) :
  snd (flatten_schema (Some T) parent_key sep)
  = dict_of_items (schema_leaves T parent_key sep)
  /\ (List.NoDup (map fst (schema_leaves T parent_key sep)) ->
      snd (flatten_schema (Some T) parent_key sep) = schema_leaves T parent_key sep).
Proof.
  split; [apply flatten_schema_is_dict_of_leaves|].
  intros Hnd. rewrite flatten_schema_is_dict_of_leaves. now apply dict_of_items_NoDup.
Qed.

Lemma flatten_schema_one_entry_per_leaf_witness :
  snd (flatten_schema
         (Some [("b", Decl (Some (TStr "object")) (Some [("y", Decl (Some (TStr "number")) None)]));
                ("a", Decl None None)]) "" "__")
  = [("b__y", Some (TStr "number")); ("a", None)].
Proof.
  refine (proj2 (flatten_schema_one_entry_per_leaf
                   [("b", Decl (Some (TStr "object"))
                            (Some [("y", Decl (Some (TStr "number")) None)]));
                    ("a", Decl None None)] "" "__") _).
  vm_compute. repeat constructor; simpl; intuition discriminate.
Defined.
